(** * quickfix: the gorm-backed message store and the session registry

    A shallow embedding of [registry.go] and of the gorm message store
    ([gormStoreFactory], [gromStore]).  Go methods become functions that pass
    the mutated objects explicitly: a method of [*gromStore] takes the store
    and the database and returns the Go result together with the store and the
    database it leaves behind.  A Go [error] result is an [option error]
    ([None] is [nil]); a Go [(T, error)] result is a [result T]. *)

From Stdlib Require Import ZArith List String Lia.
From stdpp Require Import base decidable countable gmap strings list sorting.

Open Scope Z_scope.

(** ** Values shared by the store and the registry *)

(** Go's [int] on the 64-bit targets the engine is built for. *)
Definition max_int : Z := 2 ^ 63 - 1.

Record SessionID := mkSessionID {
  BeginString : string;
  TargetCompID : string;
  TargetSubID : string;
  TargetLocationID : string;
  SenderCompID : string;
  SenderSubID : string;
  SenderLocationID : string;
  Qualifier : string
}.

#[global] Instance SessionID_eq_dec : EqDecision SessionID.
Proof. solve_decision. Defined.

Definition SessionID_to_tuple (s : SessionID) :=
  (BeginString s, TargetCompID s, TargetSubID s, TargetLocationID s,
   SenderCompID s, SenderSubID s, SenderLocationID s, Qualifier s).

Definition SessionID_of_tuple
  (t : string * string * string * string * string * string * string * string)
  : SessionID :=
  let '(b, tc, ts, tl, sc, ss, sl, q) := t in mkSessionID b tc ts tl sc ss sl q.

#[global] Instance SessionID_countable : Countable SessionID.
Proof.
  apply (inj_countable' SessionID_to_tuple SessionID_of_tuple).
  by intros [].
Defined.

(** FIX field tags.  The tag constants are declared outside the two files;
    they are the standard FIX field numbers. *)
Definition Tag := Z.
Definition tagBeginString : Tag := 8.
Definition tagSenderCompID : Tag := 49.
Definition tagSenderSubID : Tag := 50.
Definition tagTargetCompID : Tag := 56.
Definition tagTargetSubID : Tag := 57.

(** Go error values.  [Wrap e msg] is [errors.Wrap(e, msg)]. *)
Inductive error :=
  | errDuplicateSessionID
  | errUnknownSession
  | ErrUnknownSessionFmt (sid : SessionID)
  | ErrTest
  | ErrRecordNotFound
  | ErrDriver
  | ErrNoSuchTable (name : string)
  | ErrTableExists (name : string)
  | ErrDuplicateKey
  | ErrFieldMissing (tag : Tag)
  | ErrIncorrectFormatForSetting (name : string)
  | ErrSeqNumOverflow
  | Wrap (e : error) (msg : string).

#[global] Instance error_eq_dec : EqDecision error.
Proof. solve_decision. Defined.

Inductive result (A : Type) :=
  | Ok (a : A)
  | Err (e : error).
Arguments Ok {A} a.
Arguments Err {A} e.

(** ** The in-memory sequence cache *)

(** Modelled from the spec: [memoryStore], the type behind [gromStore.cache],
    is declared outside the two files.  The spec's SequenceCache is the record
    of a creation time and the two next sequence numbers, pure in-memory; its
    reset puts [{now, 1, 1}], its setters store the value, its increment adds
    one and is the only step that can fail, when the counter would leave the
    representable range. *)
Module MemoryStore.

Record memoryStore := mk {
  creationTime : Z;
  nextSenderSeqNum : Z;
  nextTargetSeqNum : Z
}.

(** [&memoryStore{}] *)
Definition empty : memoryStore := mk 0 1 1.

Definition NextSenderMsgSeqNum (c : memoryStore) : Z := nextSenderSeqNum c.
Definition NextTargetMsgSeqNum (c : memoryStore) : Z := nextTargetSeqNum c.
Definition CreationTime (c : memoryStore) : Z := creationTime c.

Definition SetNextSenderMsgSeqNum (c : memoryStore) (next : Z)
  : option error * memoryStore :=
  (None, mk (creationTime c) next (nextTargetSeqNum c)).

Definition SetNextTargetMsgSeqNum (c : memoryStore) (next : Z)
  : option error * memoryStore :=
  (None, mk (creationTime c) (nextSenderSeqNum c) next).

Definition IncrNextSenderMsgSeqNum (c : memoryStore)
  : option error * memoryStore :=
  if decide (nextSenderSeqNum c < max_int)
  then (None, mk (creationTime c) (nextSenderSeqNum c + 1) (nextTargetSeqNum c))
  else (Some ErrSeqNumOverflow, c).

Definition IncrNextTargetMsgSeqNum (c : memoryStore)
  : option error * memoryStore :=
  if decide (nextTargetSeqNum c < max_int)
  then (None, mk (creationTime c) (nextSenderSeqNum c) (nextTargetSeqNum c + 1))
  else (Some ErrSeqNumOverflow, c).

(** [now] is the reading of [time.Now()]. *)
Definition Reset (now : Z) (c : memoryStore) : option error * memoryStore :=
  (None, mk now 1 1).

(** Direct write of the [creationTime] field, as [populateCache] does. *)
Definition set_creationTime (t : Z) (c : memoryStore) : memoryStore :=
  mk t (nextSenderSeqNum c) (nextTargetSeqNum c).

End MemoryStore.

(** ** The database behind [*gorm.DB] *)

(** Rows of the two tables.  The row types [GormSessions] and [GormMessages]
    are declared outside the two files; the columns are the ones the SQL text
    of the store names: the eight session-identity columns (kept together as a
    [SessionID]) and the value columns. *)
Record GormSessions := mkGormSessions {
  gs_session : SessionID;
  CreationTime : Z;
  IncomingSeqNum : Z;
  OutgoingSeqNum : Z
}.

Record GormMessages := mkGormMessages {
  gm_session : SessionID;
  msgseqnum : Z;
  message : string
}.

(** The state of the database: a table is [None] until it is created.
    [fix_test] holds the [open] column of the table [SaveMessage] counts.
    [faults] scripts the failures of the connection: every statement sent to
    the database takes the head of the list, and fails with [ErrDriver],
    leaving the tables as they are, when it is [true]; an empty script means
    no further failure. *)
Record DB := mkDB {
  sessions_tbl : option (list GormSessions);
  messages_tbl : option (list GormMessages);
  fix_test_tbl : option (list Z);
  faults : list bool
}.

Definition set_sessions (t : option (list GormSessions)) (d : DB) : DB :=
  mkDB t (messages_tbl d) (fix_test_tbl d) (faults d).
Definition set_messages (t : option (list GormMessages)) (d : DB) : DB :=
  mkDB (sessions_tbl d) t (fix_test_tbl d) (faults d).
Definition set_faults (f : list bool) (d : DB) : DB :=
  mkDB (sessions_tbl d) (messages_tbl d) (fix_test_tbl d) f.

Module Gorm.

(** One statement on the connection: consume the next scripted fault. *)
Definition stmt {A : Type} (body : DB -> result A * DB) (d : DB)
  : result A * DB :=
  match faults d with
  | true :: fs => (Err ErrDriver, set_faults fs d)
  | false :: fs => body (set_faults fs d)
  | [] => body d
  end.

(** [db.Migrator().HasTable(name)] *)
Definition HasTable (name : string) (d : DB) : bool :=
  if String.eqb name "sessions" then bool_decide (is_Some (sessions_tbl d))
  else if String.eqb name "messages" then bool_decide (is_Some (messages_tbl d))
  else if String.eqb name "fix_test" then bool_decide (is_Some (fix_test_tbl d))
  else false.

(** [db.Migrator().CreateTable(&GormSessions{})] *)
Definition CreateTable_sessions : DB -> result unit * DB :=
  stmt (fun d =>
    match sessions_tbl d with
    | Some _ => (Err (ErrTableExists "sessions"), d)
    | None => (Ok tt, set_sessions (Some []) d)
    end).

(** [db.Migrator().CreateTable(&GormMessages{})] *)
Definition CreateTable_messages : DB -> result unit * DB :=
  stmt (fun d =>
    match messages_tbl d with
    | Some _ => (Err (ErrTableExists "messages"), d)
    | None => (Ok tt, set_messages (Some []) d)
    end).

Definition of_session (s : SessionID) (r : GormSessions) : bool :=
  bool_decide (gs_session r = s).

Definition msg_of_session (s : SessionID) (r : GormMessages) : bool :=
  bool_decide (gm_session r = s).

(** [db.Table("sessions").Where(<session s>).First(&dest)] *)
Definition First_session (s : SessionID) : DB -> result GormSessions * DB :=
  stmt (fun d =>
    match sessions_tbl d with
    | None => (Err (ErrNoSuchTable "sessions"), d)
    | Some rows =>
        match List.filter (of_session s) rows with
        | r :: _ => (Ok r, d)
        | [] => (Err ErrRecordNotFound, d)
        end
    end).

(** [INSERT INTO sessions (...) VALUES (...)]; the table is keyed by the
    session identity. *)
Definition Insert_session (r : GormSessions) : DB -> result unit * DB :=
  stmt (fun d =>
    match sessions_tbl d with
    | None => (Err (ErrNoSuchTable "sessions"), d)
    | Some rows =>
        if existsb (of_session (gs_session r)) rows
        then (Err ErrDuplicateKey, d)
        else (Ok tt, set_sessions (Some (rows ++ [r])) d)
    end).

(** [db.Table("sessions").Where(<session s>).Update(..)] and [.Updates(..)]:
    [f] rewrites the named columns of every row of [s].  A statement that
    matches no row succeeds. *)
Definition Update_sessions (s : SessionID) (f : GormSessions -> GormSessions)
  : DB -> result unit * DB :=
  stmt (fun d =>
    match sessions_tbl d with
    | None => (Err (ErrNoSuchTable "sessions"), d)
    | Some rows =>
        (Ok tt,
         set_sessions
           (Some (List.map (fun r => if of_session s r then f r else r) rows)) d)
    end).

(** [DELETE FROM messages WHERE <session s>] *)
Definition Delete_messages (s : SessionID) : DB -> result unit * DB :=
  stmt (fun d =>
    match messages_tbl d with
    | None => (Err (ErrNoSuchTable "messages"), d)
    | Some rows =>
        (Ok tt,
         set_messages
           (Some (List.filter (fun r => negb (msg_of_session s r)) rows)) d)
    end).

Definition same_key (s : SessionID) (n : Z) (r : GormMessages) : bool :=
  msg_of_session s r && (msgseqnum r =? n).

(** [INSERT INTO messages (...) VALUES (...)]; the table is keyed by the
    session identity and [msgseqnum]. *)
Definition Insert_message (r : GormMessages) : DB -> result unit * DB :=
  stmt (fun d =>
    match messages_tbl d with
    | None => (Err (ErrNoSuchTable "messages"), d)
    | Some rows =>
        if existsb (same_key (gm_session r) (msgseqnum r)) rows
        then (Err ErrDuplicateKey, d)
        else (Ok tt, set_messages (Some (rows ++ [r])) d)
    end).

(** [db.Table("messages").Where(<session s> AND msgseqnum=n).Limit(1).Count(..)]:
    [SELECT count( * ) ... LIMIT 1] yields the one row holding the count. *)
Definition Count_messages (s : SessionID) (n : Z) : DB -> result Z * DB :=
  stmt (fun d =>
    match messages_tbl d with
    | None => (Err (ErrNoSuchTable "messages"), d)
    | Some rows => (Ok (Z.of_nat (length (List.filter (same_key s n) rows))), d)
    end).

(** [db.Table("fix_test").Where("open = 1").Count(..)] *)
Definition Count_fix_test_open : DB -> result Z * DB :=
  stmt (fun d =>
    match fix_test_tbl d with
    | None => (Err (ErrNoSuchTable "fix_test"), d)
    | Some rows =>
        (Ok (Z.of_nat (length (List.filter (fun o => o =? 1) rows))), d)
    end).

Definition in_range (b e : Z) (r : GormMessages) : bool :=
  (b <=? msgseqnum r) && (msgseqnum r <=? e).

Definition seq_le (r1 r2 : GormMessages) : Prop := msgseqnum r1 <= msgseqnum r2.

#[global] Instance seq_le_dec : RelDecision seq_le.
Proof. intros r1 r2. unfold seq_le. apply _. Defined.

#[global] Instance seq_le_total : Total seq_le.
Proof. intros r1 r2. unfold seq_le. lia. Qed.

#[global] Instance seq_le_trans : Transitive seq_le.
Proof. intros r1 r2 r3. unfold seq_le. lia. Qed.

(** The rows a [SELECT ... WHERE <session s> AND msgseqnum>=b AND msgseqnum<=e
    ORDER BY msgseqnum] selects, in the order it yields them. *)
Definition select_range (s : SessionID) (b e : Z) (rows : list GormMessages)
  : list GormMessages :=
  merge_sort seq_le
    (List.filter (fun r => msg_of_session s r && in_range b e r) rows).

(** The cursor [*sql.Rows]: the values still to be scanned, each scan either
    a string or an error, and the error [rows.Err()] reports at the end. *)
Record Rows := mkRows {
  pending : list (result string);
  rows_err : option error
}.

(** [db.Raw("SELECT message FROM messages WHERE ... ORDER BY msgseqnum").Rows()] *)
Definition Raw_select_messages (s : SessionID) (b e : Z) : DB -> result Rows * DB :=
  stmt (fun d =>
    match messages_tbl d with
    | None => (Err (ErrNoSuchTable "messages"), d)
    | Some rows =>
        (Ok (mkRows (List.map (fun r => Ok (message r)) (select_range s b e rows)) None), d)
    end).

End Gorm.

(** The [.Error] of a finished statement. *)
Definition err_of {A : Type} (r : result A) : option error :=
  match r with
  | Ok _ => None
  | Err e => Some e
  end.

(** A count read into a variable declared [var n int64]: the variable keeps
    its zero value when the statement fails, its error being dropped. *)
Definition count_or_zero (r : result Z) : Z :=
  match r with
  | Ok n => n
  | Err _ => 0
  end.

(** ** Configuration *)

(** The settings types are declared outside the two files.  Of a
    [SessionSettings] the factory uses two methods, and of [Settings] the
    global settings and the table of configured sessions. *)
Record SessionSettings := mkSessionSettings {
  HasSetting : string -> bool;
  BoolSetting : string -> result bool
}.

Record Settings := mkSettings {
  globalSettings : SessionSettings;
  sessionSettings : gmap SessionID SessionSettings
}.

(** [config.DynamicSessions] *)
Definition DynamicSessions : string := "DynamicSessions".

(** ** The gorm message store *)

Module GormStore.

(** [db] records whether the store still holds its [*gorm.DB]; the database
    the handle points to is passed to every method.  The methods below are
    those of a store that holds its handle, as [Create] returns it. *)
Record gromStore := mkStore {
  sessionID : SessionID;
  cache : MemoryStore.memoryStore;
  db : bool
}.

Record gormStoreFactory := mkFactory {
  settings : Settings
}.

(** The factory keeps the settings and the handle; the database the handle
    points to is passed to [Create]. *)
Definition NewGormStoreFactory (settings : Settings) : gormStoreFactory :=
  mkFactory settings.

Definition with_cache (c : MemoryStore.memoryStore) (store : gromStore) : gromStore :=
  mkStore (sessionID store) c (db store).

Definition initTables (store : gromStore) (d : DB) : option error * DB :=
  let step1 :=
    if negb (Gorm.HasTable "sessions" d)
    then let (r, d1) := Gorm.CreateTable_sessions d in (err_of r, d1)
    else (None, d) in
  match step1 with
  | (Some err, d1) => (Some (Wrap err "gromStore.initTables err"), d1)
  | (None, d1) =>
      let step2 :=
        if negb (Gorm.HasTable "messages" d1)
        then let (r, d2) := Gorm.CreateTable_messages d1 in (err_of r, d2)
        else (None, d1) in
      match step2 with
      | (Some err, d2) => (Some (Wrap err "gromStore.initTables err"), d2)
      | (None, d2) => (None, d2)
      end
  end.

Definition populateCache (store : gromStore) (d : DB)
  : option error * gromStore * DB :=
  let s := sessionID store in
  match Gorm.First_session s d with
  | (Ok dest, d1) =>
      let c0 := MemoryStore.set_creationTime (CreationTime dest) (cache store) in
      match MemoryStore.SetNextTargetMsgSeqNum c0 (IncomingSeqNum dest) with
      | (Some err, c1) =>
          (Some (Wrap err "cache set next target"), with_cache c1 store, d1)
      | (None, c1) =>
          match MemoryStore.SetNextSenderMsgSeqNum c1 (OutgoingSeqNum dest) with
          | (Some err, c2) =>
              (Some (Wrap err "cache set next sender"), with_cache c2 store, d1)
          | (None, c2) => (None, with_cache c2 store, d1)
          end
      end
  | (Err err, d1) =>
      if decide (err = ErrRecordNotFound)
      then
        let c := cache store in
        let (r, d2) :=
          Gorm.Insert_session
            (mkGormSessions s (MemoryStore.creationTime c)
               (MemoryStore.NextTargetMsgSeqNum c)
               (MemoryStore.NextSenderMsgSeqNum c)) d1 in
        (err_of r, store, d2)
      else (Some err, store, d1)
  end.

Definition Create (f : gormStoreFactory) (sessionID : SessionID) (now : Z) (d : DB)
  : result gromStore * DB :=
  let flag :=
    if HasSetting (globalSettings (settings f)) DynamicSessions
    then BoolSetting (globalSettings (settings f)) DynamicSessions
    else Ok false in
  match flag with
  | Err err => (Err err, d)
  | Ok dynamicSessions =>
      let ok := bool_decide (is_Some (sessionSettings (settings f) !! sessionID)) in
      if negb ok && negb dynamicSessions
      then (Err (ErrUnknownSessionFmt sessionID), d)
      else
        let store := mkStore sessionID MemoryStore.empty true in
        match initTables store d with
        | (Some err, d1) => (Err (Wrap err "initTables err"), d1)
        | (None, d1) =>
            match MemoryStore.Reset now (cache store) with
            | (Some err, _) => (Err (Wrap err "cache reset"), d1)
            | (None, c) =>
                match populateCache (with_cache c store) d1 with
                | (Some err, _, d2) => (Err err, d2)
                | (None, store', d2) => (Ok store', d2)
                end
            end
        end
  end.

(** The columns [Reset] writes back with [Updates]. *)
Definition reset_columns (c : MemoryStore.memoryStore) (r : GormSessions) : GormSessions :=
  mkGormSessions (gs_session r) (MemoryStore.CreationTime c)
    (MemoryStore.NextTargetMsgSeqNum c) (MemoryStore.NextSenderMsgSeqNum c).

Definition Reset (store : gromStore) (now : Z) (d : DB)
  : option error * gromStore * DB :=
  let s := sessionID store in
  match Gorm.Delete_messages s d with
  | (Err err, d1) => (Some err, store, d1)
  | (Ok _, d1) =>
      match MemoryStore.Reset now (cache store) with
      | (Some err, c) => (Some err, with_cache c store, d1)
      | (None, c) =>
          let (r, d2) := Gorm.Update_sessions s (reset_columns c) d1 in
          (err_of r, with_cache c store, d2)
      end
  end.

Definition Refresh (store : gromStore) (now : Z) (d : DB)
  : option error * gromStore * DB :=
  match MemoryStore.Reset now (cache store) with
  | (Some err, c) => (Some err, with_cache c store, d)
  | (None, c) => populateCache (with_cache c store) d
  end.

Definition NextSenderMsgSeqNum (store : gromStore) : Z :=
  MemoryStore.NextSenderMsgSeqNum (cache store).

Definition NextTargetMsgSeqNum (store : gromStore) : Z :=
  MemoryStore.NextTargetMsgSeqNum (cache store).

Definition set_outgoing (next : Z) (r : GormSessions) : GormSessions :=
  mkGormSessions (gs_session r) (CreationTime r) (IncomingSeqNum r) next.

Definition set_incoming (next : Z) (r : GormSessions) : GormSessions :=
  mkGormSessions (gs_session r) (CreationTime r) next (OutgoingSeqNum r).

Definition SetNextSenderMsgSeqNum (store : gromStore) (next : Z) (d : DB)
  : option error * gromStore * DB :=
  let s := sessionID store in
  match Gorm.Update_sessions s (set_outgoing next) d with
  | (Err err, d1) => (Some err, store, d1)
  | (Ok _, d1) =>
      let (e, c) := MemoryStore.SetNextSenderMsgSeqNum (cache store) next in
      (e, with_cache c store, d1)
  end.

Definition SetNextTargetMsgSeqNum (store : gromStore) (next : Z) (d : DB)
  : option error * gromStore * DB :=
  let s := sessionID store in
  match Gorm.Update_sessions s (set_incoming next) d with
  | (Err err, d1) => (Some err, store, d1)
  | (Ok _, d1) =>
      let (e, c) := MemoryStore.SetNextTargetMsgSeqNum (cache store) next in
      (e, with_cache c store, d1)
  end.

Definition IncrNextSenderMsgSeqNum (store : gromStore) (d : DB)
  : option error * gromStore * DB :=
  match MemoryStore.IncrNextSenderMsgSeqNum (cache store) with
  | (Some err, c) => (Some (Wrap err "cache incr next"), with_cache c store, d)
  | (None, c) =>
      let store1 := with_cache c store in
      SetNextSenderMsgSeqNum store1 (MemoryStore.NextSenderMsgSeqNum (cache store1)) d
  end.

Definition IncrNextTargetMsgSeqNum (store : gromStore) (d : DB)
  : option error * gromStore * DB :=
  match MemoryStore.IncrNextTargetMsgSeqNum (cache store) with
  | (Some err, c) => (Some (Wrap err "cache incr next"), with_cache c store, d)
  | (None, c) =>
      let store1 := with_cache c store in
      SetNextTargetMsgSeqNum store1 (MemoryStore.NextTargetMsgSeqNum (cache store1)) d
  end.

Definition CreationTime (store : gromStore) : Z :=
  MemoryStore.CreationTime (cache store).

Definition SaveMessage (store : gromStore) (seqNum : Z) (msg : list Byte.byte) (d : DB)
  : option error * DB :=
  let s := sessionID store in
  let (r0, d0) := Gorm.Count_fix_test_open d in
  let testCnt := count_or_zero r0 in
  if 1 <? testCnt then (Some ErrTest, d0)
  else
    let (r1, d1) :=
      Gorm.Insert_message (mkGormMessages s seqNum (string_of_list_byte msg)) d0 in
    match err_of r1 with
    | Some err =>
        let (r2, d2) := Gorm.Count_messages s seqNum d1 in
        let counter := count_or_zero r2 in
        if counter =? 1 then (None, d2) else (Some err, d2)
    | None => (None, d1)
    end.

(** The [for rows.Next()] loop: scan every pending value, appending to [msgs]. *)
Fixpoint scan_rows (pending : list (result string)) (msgs : list (list Byte.byte))
  : result (list (list Byte.byte)) :=
  match pending with
  | [] => Ok msgs
  | Ok message :: rest => scan_rows rest (msgs ++ [list_byte_of_string message])
  | Err err :: _ => Err err
  end.

Definition GetMessages (store : gromStore) (beginSeqNum endSeqNum : Z) (d : DB)
  : result (list (list Byte.byte)) * DB :=
  let s := sessionID store in
  match Gorm.Raw_select_messages s beginSeqNum endSeqNum d with
  | (Err err, d1) => (Err err, d1)
  | (Ok rows, d1) =>
      match scan_rows (Gorm.pending rows) [] with
      | Err err => (Err err, d1)
      | Ok msgs =>
          match Gorm.rows_err rows with
          | Some err => (Err err, d1)
          | None => (Ok msgs, d1)
          end
      end
  end.

(** [Close] drops the handle and always returns [nil]; the pool behind the
    handle is not part of [DB], and what [Close] does to it has no result. *)
Definition Close (store : gromStore) : option error * gromStore :=
  if db store
  then (None, mkStore (sessionID store) (cache store) false)
  else (None, store).

End GormStore.

(** ** The session registry *)

(** The message and its header are declared outside the two files; the
    registry reads header fields through [GetField], which leaves [out] as it
    is and returns an error when the field is absent. *)
Record Message := mkMessage {
  Header : gmap Tag string;
  Body : gmap Tag string
}.

Definition GetField (fields : gmap Tag string) (tag : Tag) (out : string)
  : option error * string :=
  match fields !! tag with
  | Some v => (None, v)
  | None => (Some (ErrFieldMissing tag), out)
  end.

Class Messagable (M : Type) := ToMessage : M -> Message.

#[global] Instance Message_Messagable : Messagable Message := fun m => m.

(** The part of the [MessageStore] interface the registry calls. *)
Class MessageStore (S : Type) := Close : S -> option error * S.

#[global] Instance gromStore_MessageStore : MessageStore GormStore.gromStore :=
  GormStore.Close.

Module Registry.

(** The session handle: its identity, its store, and the messages queued
    for sending. *)
Record session (S : Type) := mkSession {
  sessionID : SessionID;
  store : S;
  toSend : list Message
}.
Arguments mkSession {S} _ _ _.
Arguments sessionID {S} _.
Arguments store {S} _.
Arguments toSend {S} _.

Section Sessions.

Context {S : Type} `{MessageStore S}.

(** [session.queueForSend] belongs to the session layer. *)
Variable queueForSend : session S -> Message -> option error * session S.

(** [sessions] is the package-level map; every function below runs under
    [sessionsLock], so each is one atomic step on the map.  The map holds
    pointers: what a call does to a session is written back to its entry. *)
Definition lookupSession (sessionID : SessionID) (sessions : gmap SessionID (session S))
  : option (session S) :=
  sessions !! sessionID.

Definition registerSession (s : session S) (sessions : gmap SessionID (session S))
  : option error * gmap SessionID (session S) :=
  match sessions !! sessionID s with
  | Some _ => (Some errDuplicateSessionID, sessions)
  | None => (None, <[sessionID s := s]> sessions)
  end.

Definition UnregisterSession (sessionID : SessionID)
  (sessions : gmap SessionID (session S))
  : option error * gmap SessionID (session S) :=
  match sessions !! sessionID with
  | Some s =>
      let (err, st) := Close (store s) in
      let s' := mkSession (Registry.sessionID s) st (toSend s) in
      match err with
      | Some e => (Some e, <[sessionID := s']> sessions)
      | None => (None, delete sessionID sessions)
      end
  | None => (Some errUnknownSession, sessions)
  end.

Definition SendToTarget {M : Type} `{Messagable M} (m : M) (sessionID : SessionID)
  (sessions : gmap SessionID (session S))
  : option error * gmap SessionID (session S) :=
  let msg := ToMessage m in
  match lookupSession sessionID sessions with
  | None => (Some errUnknownSession, sessions)
  | Some session =>
      let (err, session') := queueForSend session msg in
      (err, <[sessionID := session']> sessions)
  end.

Definition Send {M : Type} `{Messagable M} (m : M)
  (sessions : gmap SessionID (session S))
  : option error * gmap SessionID (session S) :=
  let msg := ToMessage m in
  match GetField (Header msg) tagBeginString "" with
  | (Some err, _) => (Some err, sessions)
  | (None, beginString) =>
  match GetField (Header msg) tagTargetCompID "" with
  | (Some err, _) => (Some err, sessions)
  | (None, targetCompID) =>
  match GetField (Header msg) tagSenderCompID "" with
  | (Some err, _) => (Some err, sessions)
  | (None, senderCompID) =>
      let (_, senderSubID) := GetField (Header msg) tagSenderSubID "" in
      let (_, targetSubID) := GetField (Header msg) tagTargetSubID "" in
      if (0 <? String.length senderSubID)%nat && (0 <? String.length targetSubID)%nat
      then
        SendToTarget msg
          (mkSessionID beginString targetCompID targetSubID ""
             senderCompID senderSubID "" "") sessions
      else
        SendToTarget msg
          (mkSessionID beginString targetCompID "" ""
             senderCompID "" "" "") sessions
  end end end.

End Sessions.

End Registry.


(** ** Scenarios used by the statements below *)

(** [N] calls of [IncrNextSenderMsgSeqNum] in a row, stopping at the first
    call that returns an error. *)
Fixpoint incr_sender_times (N : nat) (store : GormStore.gromStore) (d : DB)
  : option error * GormStore.gromStore * DB :=
  match N with
  | O => (None, store, d)
  | S k =>
      match GormStore.IncrNextSenderMsgSeqNum store d with
      | (Some err, store', d') => (Some err, store', d')
      | (None, store', d') => incr_sender_times k store' d'
      end
  end.

(** A store of another backend, whose [Close] returns what the backend
    reports: the interface leaves the result of [Close] to the implementation. *)
Record backendStore := mkBackendStore {
  close_result : option error;
  closed : bool
}.

#[global] Instance backendStore_MessageStore : MessageStore backendStore :=
  fun st => (close_result st, mkBackendStore (close_result st) true).

(** The rows of session [s] in a sessions table. *)
Definition session_rows (s : SessionID) (d : DB) : list GormSessions :=
  match sessions_tbl d with
  | Some rows => List.filter (Gorm.of_session s) rows
  | None => []
  end.

(** The log entries of session [s] in the messages table. *)
Definition message_rows (s : SessionID) (d : DB) : list GormMessages :=
  match messages_tbl d with
  | Some rows => List.filter (Gorm.msg_of_session s) rows
  | None => []
  end.

(** The log entries stored for session [s] under sequence number [n]. *)
Definition log_entries (s : SessionID) (n : Z) (d : DB) : list GormMessages :=
  match messages_tbl d with
  | Some rows => List.filter (Gorm.same_key s n) rows
  | None => []
  end.

(** The bytes [GetMessages] returns for a log entry. *)
Definition payload (r : GormMessages) : list Byte.byte :=
  list_byte_of_string (message r).

(** Two database states hold the same tables (they may differ in the fault
    script still to come). *)
Definition same_tables (d d' : DB) : Prop :=
  sessions_tbl d' = sessions_tbl d /\
  messages_tbl d' = messages_tbl d /\
  fix_test_tbl d' = fix_test_tbl d.

(** ** Concrete sessions, stores and databases *)

Definition sid0 : SessionID :=
  mkSessionID "FIX.4.2" "TARGET" "" "" "SENDER" "" "" "".

(** The same parties, keyed with their sub-identifiers. *)
Definition sid0_sub : SessionID :=
  mkSessionID "FIX.4.2" "TARGET" "DESK" "" "SENDER" "OPS" "" "".

Definition sid1 : SessionID :=
  mkSessionID "FIX.4.4" "BROKER" "" "" "SENDER" "" "" "".

(** A database that has never been used. *)
Definition db_blank : DB := mkDB None None None [].

(** A database holding the record of [sid0] at [1]/[1] and an empty log. *)
Definition db_fresh : DB :=
  mkDB (Some [mkGormSessions sid0 100 1 1]) (Some []) None [].

(** The store [Create] returns for [sid0] over [db_fresh]. *)
Definition store_fresh : GormStore.gromStore :=
  GormStore.mkStore sid0 (MemoryStore.mk 100 1 1) true.

(** [db_fresh] with two log entries of [sid0] and one of [sid1]. *)
Definition db_logged : DB :=
  mkDB (Some [mkGormSessions sid0 100 1 3])
       (Some [mkGormMessages sid0 2 "35=0|34=2";
              mkGormMessages sid1 1 "35=A|34=1";
              mkGormMessages sid0 1 "35=A|34=1"])
       None [].

(** Settings without the dynamic-sessions key that configure [sid0] only. *)
Definition no_settings : SessionSettings :=
  mkSessionSettings (fun _ => false) (fun name => Err (ErrIncorrectFormatForSetting name)).

Definition static_settings : Settings :=
  mkSettings no_settings {[ sid0 := no_settings ]}.

(** Settings whose dynamic-sessions key holds a value that is no boolean. *)
Definition malformed_settings : Settings :=
  mkSettings
    (mkSessionSettings (fun name => String.eqb name DynamicSessions)
       (fun name => Err (ErrIncorrectFormatForSetting name)))
    {[ sid0 := no_settings ]}.

(** Modelled from the spec: [session.queueForSend] is declared outside the
    two files; the spec has it hand the message to the outbound queue of the
    session and return. *)
Definition queue_append {S : Type} (s : Registry.session S) (msg : Message)
  : option error * Registry.session S :=
  (None,
   Registry.mkSession (Registry.sessionID s) (Registry.store s)
     (Registry.toSend s ++ [msg])).

(** A session over a store whose [Close] fails, and one over a gorm store. *)
Definition session_failing_close : Registry.session backendStore :=
  Registry.mkSession sid0 (mkBackendStore (Some ErrDriver) false) [].

Definition session_gorm : Registry.session GormStore.gromStore :=
  Registry.mkSession sid0 store_fresh [].

(** The same session registered under the key with sub-identifiers. *)
Definition session_gorm_sub : Registry.session GormStore.gromStore :=
  Registry.mkSession sid0_sub (GormStore.mkStore sid0_sub (MemoryStore.mk 100 1 1) true) [].

(** A logon message of the parties of [sid0] without sub-identifiers, and one
    with both. *)
Definition logon_plain : Message :=
  mkMessage
    (<[tagBeginString := "FIX.4.2"]>
       (<[tagSenderCompID := "SENDER"]> (<[tagTargetCompID := "TARGET"]> ∅)))
    ∅.

Definition logon_sub : Message :=
  mkMessage
    (<[tagSenderSubID := "OPS"]>
       (<[tagTargetSubID := "DESK"]> (Header logon_plain)))
    ∅.

(** A message whose header lacks the target. *)
Definition logon_no_target : Message :=
  mkMessage (<[tagBeginString := "FIX.4.2"]> (<[tagSenderCompID := "SENDER"]> ∅)) ∅.

(** The durable record mirrors the cache of [store] for the sender direction:
    the session has a record, and the one [First] reads carries the cache's
    next sender sequence number. *)
Definition durable_mirror (store : GormStore.gromStore) (d : DB) : Prop :=
  exists r rest,
    session_rows (GormStore.sessionID store) d = r :: rest /\
    OutgoingSeqNum r = GormStore.NextSenderMsgSeqNum store.

(** The durable record mirrors the whole cache of [store]: the record
    [First] reads carries the cache's creation time and both next sequence
    numbers. *)
Definition durable_record (store : GormStore.gromStore) (d : DB) : Prop :=
  exists r rest,
    session_rows (GormStore.sessionID store) d = r :: rest /\
    CreationTime r = GormStore.CreationTime store /\
    IncomingSeqNum r = GormStore.NextTargetMsgSeqNum store /\
    OutgoingSeqNum r = GormStore.NextSenderMsgSeqNum store.

(** The calls a session makes on its store while it runs. *)
Inductive call :=
  | CallSetNextSender (next : Z)
  | CallSetNextTarget (next : Z)
  | CallIncrNextSender
  | CallIncrNextTarget
  | CallReset (now : Z)
  | CallRefresh (now : Z)
  | CallSaveMessage (seqNum : Z) (msg : list Byte.byte)
  | CallGetMessages (beginSeqNum endSeqNum : Z).

Definition do_call (c : call) (store : GormStore.gromStore) (d : DB)
  : option error * GormStore.gromStore * DB :=
  match c with
  | CallSetNextSender next => GormStore.SetNextSenderMsgSeqNum store next d
  | CallSetNextTarget next => GormStore.SetNextTargetMsgSeqNum store next d
  | CallIncrNextSender => GormStore.IncrNextSenderMsgSeqNum store d
  | CallIncrNextTarget => GormStore.IncrNextTargetMsgSeqNum store d
  | CallReset now => GormStore.Reset store now d
  | CallRefresh now => GormStore.Refresh store now d
  | CallSaveMessage seqNum msg =>
      let (err, d') := GormStore.SaveMessage store seqNum msg d in (err, store, d')
  | CallGetMessages b e =>
      let (r, d') := GormStore.GetMessages store b e d in (err_of r, store, d')
  end.

(** A run of calls, stopping at the first one that returns an error. *)
Fixpoint do_calls (cs : list call) (store : GormStore.gromStore) (d : DB)
  : option error * GormStore.gromStore * DB :=
  match cs with
  | [] => (None, store, d)
  | c :: rest =>
      match do_call c store d with
      | (Some err, store', d') => (Some err, store', d')
      | (None, store', d') => do_calls rest store' d'
      end
  end.

(** Every handle of the registry is stored under its own identity. *)
Definition keyed_by_identity {S : Type} (sessions : gmap SessionID (Registry.session S))
  : Prop :=
  forall k s, sessions !! k = Some s -> Registry.sessionID s = k.

(** * Properties *)

(** ** The scripted connection *)

Lemma same_tables_refl d : same_tables d d.
Proof. by repeat split. Qed.

Lemma same_tables_trans d1 d2 d3 :
  same_tables d1 d2 -> same_tables d2 d3 -> same_tables d1 d3.
Proof.
  intros (H1 & H2 & H3) (K1 & K2 & K3).
  repeat split; congruence.
Qed.

Lemma same_tables_set_faults fs d : same_tables d (set_faults fs d).
Proof. by repeat split. Qed.

(** A statement either hits a scripted fault, and then changes no table, or
    runs its body on the same tables. *)
Lemma stmt_inv {A : Type} (body : DB -> result A * DB) (d : DB) r d' :
  Gorm.stmt body d = (r, d') ->
  (r = Err ErrDriver /\ same_tables d d' /\ exists fs, faults d = true :: fs)
  \/ (exists d0, same_tables d d0 /\ body d0 = (r, d') /\
                 (faults d = [] -> d0 = d)).
Proof.
  unfold Gorm.stmt. destruct (faults d) as [|[] fs] eqn:Hf; intros Hs.
  - right. exists d. repeat split; auto.
  - left. inversion Hs; subst. repeat split; eauto.
  - right. exists (set_faults fs d). repeat split; auto. discriminate.
Qed.

Lemma stmt_no_fault {A : Type} (body : DB -> result A * DB) (d : DB) :
  faults d = [] -> Gorm.stmt body d = body d.
Proof. unfold Gorm.stmt. by intros ->. Qed.

(** What [Update_sessions] leaves behind. *)
Lemma Update_sessions_inv s f d r d' :
  Gorm.Update_sessions s f d = (r, d') ->
  (exists err, r = Err err /\ same_tables d d')
  \/ (r = Ok tt /\ messages_tbl d' = messages_tbl d /\
      fix_test_tbl d' = fix_test_tbl d /\
      exists rows, sessions_tbl d = Some rows /\
        sessions_tbl d' =
          Some (List.map (fun x => if Gorm.of_session s x then f x else x) rows)).
Proof.
  unfold Gorm.Update_sessions. intros Hs.
  apply stmt_inv in Hs as [(-> & Ht & _)|(d0 & Ht & Hb & _)].
  - left. eauto.
  - destruct Ht as (T1 & T2 & T3). cbv beta in Hb.
    destruct (sessions_tbl d0) as [rows|] eqn:Hrows.
    + right. inversion Hb; subst; simpl.
      repeat split; auto. exists rows. split; congruence.
    + left. inversion Hb; subst. eexists. split; eauto.
      repeat split; congruence.
Qed.

Lemma filter_map_update s (f : GormSessions -> GormSessions) rows :
  (forall x, gs_session (f x) = gs_session x) ->
  List.filter (Gorm.of_session s)
    (List.map (fun x => if Gorm.of_session s x then f x else x) rows)
  = List.map f (List.filter (Gorm.of_session s) rows).
Proof.
  intros Hf. induction rows as [|x rows IH]; simpl; auto.
  destruct (Gorm.of_session s x) eqn:Hx; simpl.
  - assert (Gorm.of_session s (f x) = true) as ->.
    { unfold Gorm.of_session in *. by rewrite Hf. }
    simpl. by rewrite IH.
  - by rewrite Hx.
Qed.

Lemma Update_sessions_rows s (f : GormSessions -> GormSessions) d d' :
  (forall x, gs_session (f x) = gs_session x) ->
  Gorm.Update_sessions s f d = (Ok tt, d') ->
  session_rows s d' = List.map f (session_rows s d).
Proof.
  intros Hf Hu.
  apply Update_sessions_inv in Hu as [(err & Herr & _)|(_ & _ & _ & rows & Hr & Hr')].
  - discriminate.
  - unfold session_rows. rewrite Hr, Hr'. by apply filter_map_update.
Qed.

(** ** The setters *)

Lemma SetNextSenderMsgSeqNum_inv (store : GormStore.gromStore) (n : Z) (d : DB) :
  let s := GormStore.sessionID store in
  match GormStore.SetNextSenderMsgSeqNum store n d with
  | (Some err, store', d') =>
      fst (Gorm.Update_sessions s (GormStore.set_outgoing n) d) = Err err /\
      store' = store /\ same_tables d d'
  | (None, store', d') =>
      fst (Gorm.Update_sessions s (GormStore.set_outgoing n) d) = Ok tt /\
      store' = GormStore.with_cache
                 (MemoryStore.mk (MemoryStore.creationTime (GormStore.cache store)) n
                    (MemoryStore.nextTargetSeqNum (GormStore.cache store))) store /\
      session_rows s d' = List.map (GormStore.set_outgoing n) (session_rows s d)
  end.
Proof.
  intros s. unfold GormStore.SetNextSenderMsgSeqNum. fold s.
  destruct (Gorm.Update_sessions s (GormStore.set_outgoing n) d)
    as [[[]|err] d1] eqn:Hu; simpl.
  - repeat split.
    apply (Update_sessions_rows s (GormStore.set_outgoing n) d d1); auto.
  - apply Update_sessions_inv in Hu as [(e & He & Ht)|(He & _)];
      [auto | discriminate].
Qed.

Lemma SetNextTargetMsgSeqNum_inv (store : GormStore.gromStore) (n : Z) (d : DB) :
  let s := GormStore.sessionID store in
  match GormStore.SetNextTargetMsgSeqNum store n d with
  | (Some err, store', d') =>
      fst (Gorm.Update_sessions s (GormStore.set_incoming n) d) = Err err /\
      store' = store /\ same_tables d d'
  | (None, store', d') =>
      fst (Gorm.Update_sessions s (GormStore.set_incoming n) d) = Ok tt /\
      store' = GormStore.with_cache
                 (MemoryStore.mk (MemoryStore.creationTime (GormStore.cache store))
                    (MemoryStore.nextSenderSeqNum (GormStore.cache store)) n) store /\
      session_rows s d' = List.map (GormStore.set_incoming n) (session_rows s d)
  end.
Proof.
  intros s. unfold GormStore.SetNextTargetMsgSeqNum. fold s.
  destruct (Gorm.Update_sessions s (GormStore.set_incoming n) d)
    as [[[]|err] d1] eqn:Hu; simpl.
  - repeat split.
    apply (Update_sessions_rows s (GormStore.set_incoming n) d d1); auto.
  - apply Update_sessions_inv in Hu as [(e & He & Ht)|(He & _)];
      [auto | discriminate].
Qed.

(** C1. [SetNextSenderMsgSeqNum] and [SetNextTargetMsgSeqNum] write the
    durable record first.  When the call returns an error, it is the error of
    the durable write, the store (so its cache) is the one before the call and
    no table has changed.  When it returns [nil], the statement has succeeded,
    every durable row of the session carries [n] in the column written, and
    the cache reads [n] for that direction and is unchanged for the other. *)
Theorem set_seqnum_write_through (store : GormStore.gromStore) (n : Z) (d : DB) :
  let s := GormStore.sessionID store in
  (match GormStore.SetNextSenderMsgSeqNum store n d with
   | (Some err, store', d') =>
       fst (Gorm.Update_sessions s (GormStore.set_outgoing n) d) = Err err /\
       store' = store /\ same_tables d d'
   | (None, store', d') =>
       fst (Gorm.Update_sessions s (GormStore.set_outgoing n) d) = Ok tt /\
       GormStore.NextSenderMsgSeqNum store' = n /\
       GormStore.NextTargetMsgSeqNum store' = GormStore.NextTargetMsgSeqNum store /\
       session_rows s d' = List.map (GormStore.set_outgoing n) (session_rows s d) /\
       Forall (fun r => OutgoingSeqNum r = n) (session_rows s d')
   end) /\
  (match GormStore.SetNextTargetMsgSeqNum store n d with
   | (Some err, store', d') =>
       fst (Gorm.Update_sessions s (GormStore.set_incoming n) d) = Err err /\
       store' = store /\ same_tables d d'
   | (None, store', d') =>
       fst (Gorm.Update_sessions s (GormStore.set_incoming n) d) = Ok tt /\
       GormStore.NextTargetMsgSeqNum store' = n /\
       GormStore.NextSenderMsgSeqNum store' = GormStore.NextSenderMsgSeqNum store /\
       session_rows s d' = List.map (GormStore.set_incoming n) (session_rows s d) /\
       Forall (fun r => IncomingSeqNum r = n) (session_rows s d')
   end).
Proof.
  intros s. split.
  - pose proof (SetNextSenderMsgSeqNum_inv store n d) as Hset. fold s in Hset.
    destruct (GormStore.SetNextSenderMsgSeqNum store n d) as [[[err|] store'] d'].
    + exact Hset.
    + destruct Hset as (Hu & -> & Hrows). repeat split; auto.
      rewrite Hrows. apply List.Forall_map, Forall_true. by intros x.
  - pose proof (SetNextTargetMsgSeqNum_inv store n d) as Hset. fold s in Hset.
    destruct (GormStore.SetNextTargetMsgSeqNum store n d) as [[[err|] store'] d'].
    + exact Hset.
    + destruct Hset as (Hu & -> & Hrows). repeat split; auto.
      rewrite Hrows. apply List.Forall_map, Forall_true. by intros x.
Qed.

(** The two branches of the sender setter on [store_fresh]: the write goes
    through, and a failing connection leaves the cache at [1]. *)
Example set_sender_on_fresh_store :
  GormStore.SetNextSenderMsgSeqNum store_fresh 7 db_fresh
  = (None,
     GormStore.mkStore sid0 (MemoryStore.mk 100 7 1) true,
     mkDB (Some [mkGormSessions sid0 100 1 7]) (Some []) None [])
  /\ GormStore.SetNextSenderMsgSeqNum store_fresh 7 (set_faults [true] db_fresh)
     = (Some ErrDriver, store_fresh, db_fresh).
Proof. split; vm_compute; reflexivity. Qed.

(** ** The increments *)

(** What a call of [IncrNextSenderMsgSeqNum] can do: fail in the cache, before
    anything is sent to the database; fail in the durable write, after the
    cache has been advanced; or succeed. *)
Lemma IncrNextSenderMsgSeqNum_outcomes (store : GormStore.gromStore) (d : DB) :
  let s := GormStore.sessionID store in
  let n := GormStore.NextSenderMsgSeqNum store in
  match GormStore.IncrNextSenderMsgSeqNum store d with
  | (Some err, store', d') =>
      (n >= max_int /\ err = Wrap ErrSeqNumOverflow "cache incr next" /\
       store' = store /\ d' = d)
      \/ (n < max_int /\ same_tables d d' /\
          GormStore.sessionID store' = s /\
          GormStore.NextSenderMsgSeqNum store' = n + 1)
  | (None, store', d') =>
      n < max_int /\
      GormStore.sessionID store' = s /\
      GormStore.NextSenderMsgSeqNum store' = n + 1 /\
      session_rows s d' = List.map (GormStore.set_outgoing (n + 1)) (session_rows s d)
  end.
Proof.
  intros s n. unfold GormStore.IncrNextSenderMsgSeqNum.
  unfold MemoryStore.IncrNextSenderMsgSeqNum.
  destruct (decide (MemoryStore.nextSenderSeqNum (GormStore.cache store) < max_int))
    as [Hlt|Hge].
  - match goal with
    | |- context [GormStore.SetNextSenderMsgSeqNum ?st ?k d] =>
        pose proof (SetNextSenderMsgSeqNum_inv st k d) as Hset;
        destruct (GormStore.SetNextSenderMsgSeqNum st k d) as [[[err|] store'] d']
    end; simpl in Hset.
    + right. destruct Hset as (_ & -> & Ht).
      split; [exact Hlt|]. split; [exact Ht|]. split; reflexivity.
    + destruct Hset as (_ & -> & Hrows).
      split; [exact Hlt|]. split; [reflexivity|]. split; [reflexivity|exact Hrows].
  - left. split; [|split; [reflexivity|split; [by destruct store|reflexivity]]].
    unfold n, GormStore.NextSenderMsgSeqNum, MemoryStore.NextSenderMsgSeqNum. lia.
Qed.

(** C2. On [store_fresh], whose cache and durable record both read [1], a
    call of [IncrNextSenderMsgSeqNum] (of [IncrNextTargetMsgSeqNum]) whose
    durable write fails returns the error and leaves the cache at [2], one
    ahead of the durable record, which still reads [1]. *)
Theorem incr_write_failure_leaves_cache_ahead :
  GormStore.IncrNextSenderMsgSeqNum store_fresh (set_faults [true] db_fresh)
  = (Some ErrDriver, GormStore.mkStore sid0 (MemoryStore.mk 100 2 1) true, db_fresh)
  /\ GormStore.IncrNextTargetMsgSeqNum store_fresh (set_faults [true] db_fresh)
     = (Some ErrDriver, GormStore.mkStore sid0 (MemoryStore.mk 100 1 2) true, db_fresh)
  /\ GormStore.NextSenderMsgSeqNum store_fresh = 1
  /\ GormStore.NextTargetMsgSeqNum store_fresh = 1
  /\ session_rows sid0 db_fresh = [mkGormSessions sid0 100 1 1].
Proof.
  split; [|split]; [vm_compute; reflexivity ..|].
  repeat split.
Qed.

(** The half of C2 that holds: when the increment fails in the cache,
    nothing has been sent to the database. *)
Example incr_overflow_touches_no_table :
  GormStore.IncrNextSenderMsgSeqNum
    (GormStore.mkStore sid0 (MemoryStore.mk 100 max_int 1) true)
    (set_faults [true] db_fresh)
  = (Some (Wrap ErrSeqNumOverflow "cache incr next"),
     GormStore.mkStore sid0 (MemoryStore.mk 100 max_int 1) true,
     set_faults [true] db_fresh).
Proof. vm_compute. reflexivity. Qed.

(** ** Table creation and the populate step *)

Ltac stmt_cases H :=
  let Ht := fresh "Ht" in
  let Hb := fresh "Hb" in
  let Hnf := fresh "Hnf" in
  let d0 := fresh "d0" in
  apply stmt_inv in H as [(-> & Ht & _)|(d0 & Ht & Hb & Hnf)];
  [|cbv beta in Hb].

Lemma session_rows_same_tables s d d' :
  same_tables d d' -> session_rows s d' = session_rows s d.
Proof. intros (H1 & _). unfold session_rows. by rewrite H1. Qed.

Lemma message_rows_same_tables s d d' :
  same_tables d d' -> message_rows s d' = message_rows s d.
Proof. intros (_ & H2 & _). unfold message_rows. by rewrite H2. Qed.

Lemma CreateTable_sessions_rows s d r d' :
  Gorm.CreateTable_sessions d = (r, d') -> session_rows s d' = session_rows s d.
Proof.
  unfold Gorm.CreateTable_sessions. intros H. stmt_cases H.
  - by apply session_rows_same_tables.
  - rewrite <- (session_rows_same_tables s d d0) by done.
    destruct (sessions_tbl d0) eqn:Hs; inversion Hb; subst; auto.
    unfold session_rows. simpl. by rewrite Hs.
Qed.

Lemma CreateTable_messages_rows s d r d' :
  Gorm.CreateTable_messages d = (r, d') -> session_rows s d' = session_rows s d.
Proof.
  unfold Gorm.CreateTable_messages. intros H. stmt_cases H.
  - by apply session_rows_same_tables.
  - rewrite <- (session_rows_same_tables s d d0) by done.
    destruct (messages_tbl d0) eqn:Hs; inversion Hb; subst; auto.
Qed.

(** [initTables] never changes the rows of a session, and cannot fail on a
    connection without scripted faults. *)
Lemma initTables_rows store d r d' s :
  GormStore.initTables store d = (r, d') ->
  session_rows s d' = session_rows s d /\
  (faults d = [] -> r = None /\ faults d' = []).
Proof.
  unfold GormStore.initTables.
  destruct (negb (Gorm.HasTable "sessions" d)) eqn:Hh1.
  - destruct (Gorm.CreateTable_sessions d) as [r1 d1] eqn:Hc1.
    pose proof (CreateTable_sessions_rows s _ _ _ Hc1) as Hrows1.
    assert (faults d = [] -> r1 = Ok tt /\ faults d1 = []) as Hnf1.
    { intros Hf. unfold Gorm.CreateTable_sessions in Hc1.
      rewrite stmt_no_fault in Hc1 by done.
      unfold Gorm.HasTable in Hh1. simpl in Hh1.
      destruct (sessions_tbl d) eqn:Hs; [by rewrite bool_decide_eq_true_2 in Hh1|].
      by inversion Hc1. }
    destruct r1 as [[]|e1]; simpl.
    + destruct (negb (Gorm.HasTable "messages" d1)) eqn:Hh2.
      * destruct (Gorm.CreateTable_messages d1) as [r2 d2] eqn:Hc2.
        pose proof (CreateTable_messages_rows s _ _ _ Hc2) as Hrows2.
        assert (faults d1 = [] -> r2 = Ok tt /\ faults d2 = []) as Hnf2.
        { intros Hf. unfold Gorm.CreateTable_messages in Hc2.
          rewrite stmt_no_fault in Hc2 by done.
          unfold Gorm.HasTable in Hh2. simpl in Hh2.
          destruct (messages_tbl d1) eqn:Hs; [by rewrite bool_decide_eq_true_2 in Hh2|].
          by inversion Hc2. }
        destruct r2 as [[]|e2]; simpl; intros Hr; inversion Hr; subst;
          (split; [congruence|]); intros Hf;
          destruct (Hnf1 Hf) as (_ & Hf1); destruct (Hnf2 Hf1) as (He & Hf2);
          [done|discriminate].
      * intros Hr; inversion Hr; subst. split; [done|].
        intros Hf. by destruct (Hnf1 Hf).
    + intros Hr; inversion Hr; subst. split; [done|].
      intros Hf. by destruct (Hnf1 Hf).
  - simpl.
    destruct (negb (Gorm.HasTable "messages" d)) eqn:Hh2.
    + destruct (Gorm.CreateTable_messages d) as [r2 d2] eqn:Hc2.
      pose proof (CreateTable_messages_rows s _ _ _ Hc2) as Hrows2.
      assert (faults d = [] -> r2 = Ok tt /\ faults d2 = []) as Hnf2.
      { intros Hf. unfold Gorm.CreateTable_messages in Hc2.
        rewrite stmt_no_fault in Hc2 by done.
        unfold Gorm.HasTable in Hh2. simpl in Hh2.
        destruct (messages_tbl d) eqn:Hs; [by rewrite bool_decide_eq_true_2 in Hh2|].
        by inversion Hc2. }
      destruct r2 as [[]|e2]; simpl; intros Hr; inversion Hr; subst;
        (split; [done|]); intros Hf; destruct (Hnf2 Hf) as (He & Hf2);
        [done|discriminate].
    + intros Hr; inversion Hr; subst. by split.
Qed.

Lemma First_session_inv s d r1 d1 :
  Gorm.First_session s d = (r1, d1) ->
  same_tables d d1 /\
  (faults d = [] -> d1 = d) /\
  match r1 with
  | Ok r => exists rest, session_rows s d = r :: rest
  | Err e =>
      (e = ErrRecordNotFound -> session_rows s d = []) /\
      (faults d = [] -> session_rows s d = [])
  end.
Proof.
  unfold Gorm.First_session, Gorm.stmt, session_rows.
  destruct (faults d) as [|[] fs] eqn:Hf; simpl;
    destruct (sessions_tbl d) as [rows|] eqn:Hs; simpl;
    try destruct (List.filter (Gorm.of_session s) rows) as [|r rest'] eqn:Hfl;
    intros H; inversion H; subst; simpl;
    repeat split; try rewrite Hs; eauto; try discriminate.
  all: destruct d; simpl in *; congruence.
Qed.

Lemma Insert_session_inv row d r1 d1 s :
  Gorm.Insert_session row d = (r1, d1) ->
  match r1 with
  | Ok _ =>
      session_rows s d1
      = session_rows s d ++ (if Gorm.of_session s row then [row] else [])
  | Err _ => same_tables d d1
  end /\
  (faults d = [] -> faults d1 = [] /\
     (is_Some (sessions_tbl d) -> session_rows (gs_session row) d = [] ->
      r1 = Ok tt)).
Proof.
  unfold Gorm.Insert_session. intros H.
  assert (faults d = [] -> Gorm.stmt
    (fun d2 => match sessions_tbl d2 with
               | Some rows =>
                   if existsb (Gorm.of_session (gs_session row)) rows
                   then (Err ErrDuplicateKey, d2)
                   else (Ok (), set_sessions (Some (rows ++ [row])) d2)
               | None => (Err (ErrNoSuchTable "sessions"), d2)
               end) d = (r1, d1) -> faults d1 = [] /\
     (is_Some (sessions_tbl d) -> session_rows (gs_session row) d = [] ->
      r1 = Ok tt)) as Hnf.
  { intros Hf. rewrite stmt_no_fault by done. unfold session_rows.
    destruct (sessions_tbl d) as [rows|] eqn:Hs.
    - destruct (existsb (Gorm.of_session (gs_session row)) rows) eqn:Hex;
        intros H'; inversion H'; subst; simpl; split; auto.
      intros _ Hnil. apply existsb_exists in Hex as (x & Hin & Hx).
      assert (In x (List.filter (Gorm.of_session (gs_session row)) rows)) as Hi
        by (apply filter_In; auto).
      rewrite Hnil in Hi. destruct Hi.
    - intros H'; inversion H'; subst. split; auto. by intros [? ?]. }
  split; [|intros Hf; by apply Hnf].
  clear Hnf. stmt_cases H; [exact Ht|].
  destruct Ht as (T1 & T2 & T3).
  destruct (sessions_tbl d0) as [rows|] eqn:Hs.
  - destruct (existsb (Gorm.of_session (gs_session row)) rows) eqn:Hex;
      inversion Hb; subst.
    + repeat split; congruence.
    + unfold session_rows. simpl. rewrite <- T1.
      rewrite List.filter_app. simpl.
      by destruct (Gorm.of_session s row).
  - inversion Hb; subst. repeat split; congruence.
Qed.

(** A successful populate step leaves the cache mirrored by the record
    [First] reads. *)
Lemma populateCache_ok_mirror store d store' d' :
  GormStore.populateCache store d = (None, store', d') ->
  GormStore.sessionID store' = GormStore.sessionID store /\
  durable_mirror store' d'.
Proof.
  unfold GormStore.populateCache.
  destruct (Gorm.First_session (GormStore.sessionID store) d) as [r1 d1] eqn:HF.
  apply First_session_inv in HF as (Ht & _ & Hr).
  destruct r1 as [dest|e]; simpl.
  - intros H; inversion H; subst. split; [done|].
    destruct Hr as (rest & Hrows). exists dest, rest. simpl.
    split; [|done]. by rewrite (session_rows_same_tables _ d d').
  - destruct (decide (e = ErrRecordNotFound)) as [->|Hne]; [|discriminate].
    destruct Hr as (Hnil & _). specialize (Hnil eq_refl).
    destruct (Gorm.Insert_session _ d1) as [r2 d2] eqn:HI.
    apply (Insert_session_inv _ _ _ _ (GormStore.sessionID store)) in HI as (HI & _).
    destruct r2 as [u|e2]; simpl; intros H; inversion H; subst.
    split; [done|].
    eexists _, []. split.
    + rewrite HI. rewrite (session_rows_same_tables _ d d1) by done.
      rewrite Hnil. simpl. unfold Gorm.of_session. simpl.
      by rewrite bool_decide_eq_true_2.
    + reflexivity.
Qed.

(** Populate over a database that holds a record of the session: it loads
    that record, and cannot fail on a connection without scripted faults. *)
Lemma populateCache_found store d r rest res store' d' :
  session_rows (GormStore.sessionID store) d = r :: rest ->
  GormStore.populateCache store d = (res, store', d') ->
  same_tables d d' /\
  (res = None ->
   GormStore.NextSenderMsgSeqNum store' = OutgoingSeqNum r /\
   GormStore.NextTargetMsgSeqNum store' = IncomingSeqNum r) /\
  (faults d = [] -> res = None /\ d' = d).
Proof.
  intros Hrows. unfold GormStore.populateCache.
  destruct (Gorm.First_session (GormStore.sessionID store) d) as [r1 d1] eqn:HF.
  apply First_session_inv in HF as (Ht & Hd & Hr).
  destruct r1 as [dest|e]; simpl.
  - destruct Hr as (rest' & Hrows'). rewrite Hrows in Hrows'.
    inversion Hrows'; subst. intros H; inversion H; subst.
    split; [done|]. split; [done|]. intros Hf. split; [done|]. by apply Hd.
  - destruct Hr as (Hnil & Hnf).
    destruct (decide (e = ErrRecordNotFound)) as [->|Hne].
    + rewrite Hnil in Hrows by done. discriminate.
    + intros H; inversion H; subst. split; [done|]. split; [done|].
      intros Hf. rewrite Hnf in Hrows by done. discriminate.
Qed.

(** ** C4: increments and restart *)

Lemma incr_sender_times_ok (N : nat) :
  forall store d store' d',
    incr_sender_times N store d = (None, store', d') ->
    GormStore.sessionID store' = GormStore.sessionID store /\
    GormStore.NextSenderMsgSeqNum store'
    = GormStore.NextSenderMsgSeqNum store + Z.of_nat N /\
    (durable_mirror store d -> durable_mirror store' d').
Proof.
  induction N as [|k IH]; intros store d store' d' Hrun.
  - simpl in Hrun. inversion Hrun; subst. repeat split; auto. lia.
  - simpl in Hrun.
    pose proof (IncrNextSenderMsgSeqNum_outcomes store d) as Hstep.
    destruct (GormStore.IncrNextSenderMsgSeqNum store d) as [[[err|] store1] d1];
      [discriminate|].
    simpl in Hstep. destruct Hstep as (_ & Hid & Hnext & Hrows).
    destruct (IH _ _ _ _ Hrun) as (Hid' & Hnext' & Hmirror).
    split; [congruence|]. split; [lia|].
    intros (r & rest & Hr & Ho). apply Hmirror.
    exists (GormStore.set_outgoing (GormStore.NextSenderMsgSeqNum store + 1) r),
      (List.map (GormStore.set_outgoing (GormStore.NextSenderMsgSeqNum store + 1)) rest).
    rewrite Hid, Hrows, Hr. simpl. by rewrite Hnext.
Qed.

Lemma Create_ok_mirror f sid now d store d1 :
  GormStore.Create f sid now d = (Ok store, d1) ->
  GormStore.sessionID store = sid /\ durable_mirror store d1.
Proof.
  unfold GormStore.Create.
  destruct (if HasSetting _ _ then _ else _) as [dyn|e]; [|discriminate].
  destruct (negb _ && negb dyn); [discriminate|].
  destruct (GormStore.initTables _ d) as [[e|] d2]; [discriminate|].
  simpl.
  destruct (GormStore.populateCache _ d2) as [[[e|] store'] d3] eqn:Hp;
    [discriminate|].
  intros H; inversion H; subst.
  by apply populateCache_ok_mirror in Hp as (Hid & Hm).
Qed.

(** Constructing the store again, with a factory that has admitted the
    session before, over a database that holds a record of the session. *)
Lemma Create_again f sid now0 d0 store0 d1 now d r rest :
  GormStore.Create f sid now0 d0 = (Ok store0, d1) ->
  session_rows sid d = r :: rest ->
  match GormStore.Create f sid now d with
  | (Ok store', _) => GormStore.NextSenderMsgSeqNum store' = OutgoingSeqNum r
  | (Err _, _) => faults d <> []
  end.
Proof.
  unfold GormStore.Create.
  destruct (if HasSetting _ _ then _ else _) as [dyn|e]; [|discriminate].
  destruct (negb _ && negb dyn); [discriminate|].
  intros _ Hrows.
  destruct (GormStore.initTables _ d) as [r2 d2] eqn:Hi.
  apply (initTables_rows _ _ _ _ sid) in Hi as (Hrows2 & Hnf2).
  rewrite Hrows in Hrows2.
  destruct r2 as [e|]; [intros Hf; by destruct (Hnf2 Hf)|].
  simpl.
  destruct (GormStore.populateCache _ d2) as [[r3 store'] d3] eqn:Hp.
  pose proof (populateCache_found
                (GormStore.with_cache (MemoryStore.mk now 1 1)
                   (GormStore.mkStore sid MemoryStore.empty true))
                d2 r rest r3 store' d3 Hrows2 Hp) as (_ & Hok & Hnf3).
  destruct r3 as [e|].
  - intros Hf. destruct (Hnf2 Hf) as (_ & Hf2). by destruct (Hnf3 Hf2).
  - by destruct (Hok eq_refl).
Qed.

Lemma Refresh_found store now d r rest :
  session_rows (GormStore.sessionID store) d = r :: rest ->
  match GormStore.Refresh store now d with
  | (None, store', _) => GormStore.NextSenderMsgSeqNum store' = OutgoingSeqNum r
  | (Some _, _, _) => faults d <> []
  end.
Proof.
  intros Hrows. unfold GormStore.Refresh. simpl.
  destruct (GormStore.populateCache _ d) as [[r3 store'] d3] eqn:Hp.
  pose proof (populateCache_found
                (GormStore.with_cache (MemoryStore.mk now 1 1) store)
                d r rest r3 store' d3 Hrows Hp) as (_ & Hok & Hnf3).
  destruct r3 as [e|].
  - intros Hf. by destruct (Hnf3 Hf).
  - by destruct (Hok eq_refl).
Qed.

(** C4. Take a store that [Create] has just returned and that reads [1] as
    its next sender sequence number.  After [N] calls of
    [IncrNextSenderMsgSeqNum] that all return [nil] it reads [1 + N]; and
    constructing the store again over the database the calls left behind, or
    refreshing the store from it, either yields a store that reads [1 + N]
    too or fails, which it can only do on a connection with faults to come. *)
Theorem incr_sender_survives_restart
  (f : GormStore.gormStoreFactory) (sid : SessionID) (now : Z) (d0 : DB)
  (store0 : GormStore.gromStore) (d1 : DB) (N : nat)
  (store : GormStore.gromStore) (d : DB) :
  GormStore.Create f sid now d0 = (Ok store0, d1) ->
  GormStore.NextSenderMsgSeqNum store0 = 1 ->
  incr_sender_times N store0 d1 = (None, store, d) ->
  GormStore.NextSenderMsgSeqNum store = 1 + Z.of_nat N /\
  (forall now',
     match GormStore.Create f sid now' d with
     | (Ok store', _) => GormStore.NextSenderMsgSeqNum store' = 1 + Z.of_nat N
     | (Err _, _) => faults d <> []
     end) /\
  (forall now',
     match GormStore.Refresh store now' d with
     | (None, store', _) => GormStore.NextSenderMsgSeqNum store' = 1 + Z.of_nat N
     | (Some _, _, _) => faults d <> []
     end).
Proof.
  intros Hcreate Hone Hrun.
  destruct (Create_ok_mirror _ _ _ _ _ _ Hcreate) as (Hsid & Hm0).
  destruct (incr_sender_times_ok _ _ _ _ _ Hrun) as (Hid & Hnext & Hm).
  rewrite Hone in Hnext.
  destruct (Hm Hm0) as (r & rest & Hrows & Hout).
  split; [exact Hnext|]. split; intros now'.
  - rewrite Hid, Hsid in Hrows.
    pose proof (Create_again f sid now d0 store0 d1 now' d r rest Hcreate Hrows) as H.
    destruct (GormStore.Create f sid now' d) as [[store'|e] d']; [|exact H].
    congruence.
  - pose proof (Refresh_found store now' d r rest Hrows) as H.
    destruct (GormStore.Refresh store now' d) as [[[e|] store'] d']; [exact H|].
    congruence.
Qed.

(** Three increments from a blank database, then a restart. *)
Lemma incr_sender_survives_restart_witness :
  GormStore.NextSenderMsgSeqNum
    (GormStore.mkStore sid0 (MemoryStore.mk 100 4 1) true) = 1 + Z.of_nat 3 /\
  (forall now',
     match GormStore.Create (GormStore.mkFactory static_settings) sid0 now'
             (mkDB (Some [mkGormSessions sid0 100 1 4]) (Some []) None []) with
     | (Ok store', _) => GormStore.NextSenderMsgSeqNum store' = 1 + Z.of_nat 3
     | (Err _, _) =>
         faults (mkDB (Some [mkGormSessions sid0 100 1 4]) (Some []) None []) <> []
     end) /\
  (forall now',
     match GormStore.Refresh
             (GormStore.mkStore sid0 (MemoryStore.mk 100 4 1) true) now'
             (mkDB (Some [mkGormSessions sid0 100 1 4]) (Some []) None []) with
     | (None, store', _) => GormStore.NextSenderMsgSeqNum store' = 1 + Z.of_nat 3
     | (Some _, _, _) =>
         faults (mkDB (Some [mkGormSessions sid0 100 1 4]) (Some []) None []) <> []
     end).
Proof.
  apply (incr_sender_survives_restart
           (GormStore.mkFactory static_settings) sid0 100 db_blank
           store_fresh db_fresh 3).
  - vm_compute. reflexivity.
  - reflexivity.
  - vm_compute. reflexivity.
Defined.

(** ** C3: saving a message twice *)

Lemma Count_fix_test_open_inv d r d' :
  Gorm.Count_fix_test_open d = (r, d') -> same_tables d d'.
Proof.
  unfold Gorm.Count_fix_test_open. intros H. stmt_cases H; [done|].
  destruct (fix_test_tbl d0); inversion Hb; by subst.
Qed.

Lemma Insert_message_err row d e d' :
  Gorm.Insert_message row d = (Err e, d') -> same_tables d d'.
Proof.
  unfold Gorm.Insert_message. intros H.
  apply stmt_inv in H as [(_ & Ht & _)|(d0 & Ht & Hb & _)]; [done|].
  cbv beta in Hb. destruct (messages_tbl d0) as [rows|].
  - destruct (existsb _ rows); inversion Hb; by subst.
  - inversion Hb; by subst.
Qed.

Lemma Count_messages_inv s n d r d' :
  Gorm.Count_messages s n d = (r, d') ->
  same_tables d d' /\
  forall k, r = Ok k -> k = Z.of_nat (length (log_entries s n d)).
Proof.
  unfold Gorm.Count_messages. intros H. stmt_cases H.
  - split; [done|]. discriminate.
  - destruct Ht as (T1 & T2 & T3). unfold log_entries. rewrite <- T2.
    destruct (messages_tbl d0) as [rows|] eqn:Hm; inversion Hb; subst.
    + split; [repeat split; congruence|]. intros k Hk. by inversion Hk.
    + split; [repeat split; congruence|]. discriminate.
Qed.

(** C3. Let the test gate of [SaveMessage] pass and its insert fail with
    [err].  The call then counts the stored entries of its own session under
    [seqNum]: when that count reads exactly one, which it only does when the
    log holds exactly one such entry, [SaveMessage] returns [nil]; when it
    reads anything else, [SaveMessage] returns [err], the error of the insert.
    Either way no table has changed. *)
Theorem SaveMessage_failed_insert
  (store : GormStore.gromStore) (seqNum : Z) (msg : list Byte.byte)
  (d : DB) (err : error) (d1 : DB) :
  let s := GormStore.sessionID store in
  let requery := Gorm.Count_messages s seqNum d1 in
  count_or_zero (fst (Gorm.Count_fix_test_open d)) <= 1 ->
  Gorm.Insert_message (mkGormMessages s seqNum (string_of_list_byte msg))
    (snd (Gorm.Count_fix_test_open d)) = (Err err, d1) ->
  (count_or_zero (fst requery) = 1 ->
   GormStore.SaveMessage store seqNum msg d = (None, snd requery) /\
   length (log_entries s seqNum d) = 1%nat) /\
  (count_or_zero (fst requery) <> 1 ->
   GormStore.SaveMessage store seqNum msg d = (Some err, snd requery)) /\
  same_tables d (snd requery).
Proof.
  intros s requery Hgate Hins. unfold GormStore.SaveMessage. fold s.
  destruct (Gorm.Count_fix_test_open d) as [r0 d0] eqn:Hc0. simpl in Hgate, Hins.
  apply Count_fix_test_open_inv in Hc0 as Ht0.
  apply Insert_message_err in Hins as Ht1.
  replace (1 <? count_or_zero r0) with false by (symmetry; apply Z.ltb_ge; lia).
  rewrite Hins. simpl. subst requery.
  destruct (Gorm.Count_messages s seqNum d1) as [r2 d2] eqn:Hc2. simpl.
  apply Count_messages_inv in Hc2 as (Ht2 & Hk).
  assert (same_tables d d2) as Ht
    by (eapply same_tables_trans; [|exact Ht2]; eapply same_tables_trans; eauto).
  split; [|split; [|exact Ht]].
  - intros Hone. rewrite Hone. simpl. split; [done|].
    destruct r2 as [k|e]; simpl in Hone; [|discriminate].
    specialize (Hk k eq_refl). subst k.
    assert (log_entries s seqNum d1 = log_entries s seqNum d) as <-.
    { unfold log_entries. destruct Ht0 as (_ & T0 & _), Ht1 as (_ & T1 & _).
      by rewrite T1, T0. }
    lia.
  - intros Hne. by apply Z.eqb_neq in Hne as ->.
Qed.

(** Saving sequence number [1] again over a log that already holds it. *)
Lemma SaveMessage_failed_insert_witness :
  GormStore.SaveMessage store_fresh 1 (list_byte_of_string "35=A|34=1") db_logged
  = (None, db_logged) /\
  length (log_entries sid0 1 db_logged) = 1%nat.
Proof.
  apply (SaveMessage_failed_insert store_fresh 1
           (list_byte_of_string "35=A|34=1") db_logged ErrDuplicateKey db_logged).
  - vm_compute. discriminate.
  - vm_compute. reflexivity.
  - vm_compute. reflexivity.
Defined.

(** The other branch: the insert fails on the connection, no entry is stored
    under the sequence number, and the error of the insert comes back. *)
Example SaveMessage_failed_insert_no_entry :
  GormStore.SaveMessage store_fresh 3 (list_byte_of_string "35=D|34=3")
    (set_faults [false; true] db_logged)
  = (Some ErrDriver, db_logged).
Proof. vm_compute. reflexivity. Qed.

(** ** C5: admission by the factory *)

(** C5, as the code has it.  [Create] first reads the dynamic-sessions
    setting: when the key is present and its value is no boolean, [Create]
    returns the error of that read and sends nothing to the database.  When the
    key is absent or reads [false] and the session is not configured, [Create]
    returns the unknown-session error and sends nothing to the database.  When
    the setting is well-formed and the session is configured or the setting
    reads [true], [Create] runs table init and then populate on a store whose
    cache has been reset: a failure of table init comes back wrapped as
    ["initTables err"], a failure of populate makes [Create] fail, and
    otherwise [Create] returns the populated store of this session. *)
Theorem Create_admission
  (f : GormStore.gormStoreFactory) (sessionID : SessionID) (now : Z) (d : DB) :
  let g := globalSettings (GormStore.settings f) in
  let configured := bool_decide (is_Some (sessionSettings (GormStore.settings f) !! sessionID)) in
  let blank := GormStore.mkStore sessionID MemoryStore.empty true in
  (forall err,
     HasSetting g DynamicSessions = true ->
     BoolSetting g DynamicSessions = Err err ->
     GormStore.Create f sessionID now d = (Err err, d)) /\
  (HasSetting g DynamicSessions = false \/ BoolSetting g DynamicSessions = Ok false ->
   configured = false ->
   GormStore.Create f sessionID now d = (Err (ErrUnknownSessionFmt sessionID), d)) /\
  (forall dyn,
     (if HasSetting g DynamicSessions then BoolSetting g DynamicSessions else Ok false)
     = Ok dyn ->
     configured = true \/ dyn = true ->
     match GormStore.initTables blank d with
     | (Some err, d1) =>
         GormStore.Create f sessionID now d = (Err (Wrap err "initTables err"), d1)
     | (None, d1) =>
         match GormStore.populateCache
                 (GormStore.with_cache (MemoryStore.mk now 1 1) blank) d1 with
         | (Some err, _, d2) =>
             exists e, GormStore.Create f sessionID now d = (Err e, d2)
         | (None, store', d2) =>
             GormStore.Create f sessionID now d = (Ok store', d2) /\
             GormStore.sessionID store' = sessionID /\
             durable_mirror store' d2
         end
     end).
Proof.
  intros g configured blank. unfold GormStore.Create. fold g configured blank.
  split; [|split].
  - intros err Hhas Hbool. by rewrite Hhas, Hbool.
  - intros Hflag Hconf. rewrite Hconf.
    destruct (HasSetting g DynamicSessions) eqn:Hhas.
    + destruct Hflag as [Hflag|Hflag]; [discriminate|]. by rewrite Hflag.
    + reflexivity.
  - intros dyn Hflag Hadm. rewrite Hflag.
    assert (negb configured && negb dyn = false) as ->.
    { destruct Hadm as [-> | ->]; [done|]. by rewrite andb_false_r. }
    destruct (GormStore.initTables blank d) as [[err|] d1]; [reflexivity|].
    simpl.
    destruct (GormStore.populateCache _ d1) as [[[err|] store'] d2] eqn:Hp.
    + eauto.
    + split; [reflexivity|]. by apply populateCache_ok_mirror in Hp as (Hid & Hm).
Qed.

(** C5 fails as stated when the dynamic-sessions key holds a value that is no
    boolean: the flag is not enabled, and yet [Create] of the unconfigured
    [sid1] returns the error of the setting, not the unknown-session error;
    and [Create] of the configured [sid0] returns the same error without
    reaching table init, the database staying blank. *)
Lemma Create_malformed_setting :
  sessionSettings malformed_settings !! sid1 = None /\
  GormStore.Create (GormStore.mkFactory malformed_settings) sid1 100 db_blank
  = (Err (ErrIncorrectFormatForSetting DynamicSessions), db_blank) /\
  ErrIncorrectFormatForSetting DynamicSessions <> ErrUnknownSessionFmt sid1 /\
  is_Some (sessionSettings malformed_settings !! sid0) /\
  GormStore.Create (GormStore.mkFactory malformed_settings) sid0 100 db_blank
  = (Err (ErrIncorrectFormatForSetting DynamicSessions), db_blank) /\
  fst (GormStore.initTables (GormStore.mkStore sid0 MemoryStore.empty true) db_blank)
  = None.
Proof.
  split; [by vm_compute|]. split; [by vm_compute|]. split; [discriminate|].
  split; [by eexists; vm_compute|]. split; by vm_compute.
Qed.

(** The three outcomes of admission on concrete settings. *)
Example Create_static_settings :
  GormStore.Create (GormStore.mkFactory static_settings) sid0 100 db_blank
  = (Ok store_fresh, db_fresh) /\
  GormStore.Create (GormStore.mkFactory static_settings) sid1 100 db_blank
  = (Err (ErrUnknownSessionFmt sid1), db_blank) /\
  GormStore.Create (GormStore.mkFactory static_settings) sid0 100
    (set_faults [true] db_blank)
  = (Err (Wrap (Wrap ErrDriver "gromStore.initTables err") "initTables err"),
     db_blank).
Proof. repeat split; by vm_compute. Qed.

(** ** C6, C10: the registry *)

(** C6. Registering a handle whose identity is already present fails with
    the duplicate-session error and returns the registry as it was;
    unregistering an identity that is not present fails with the
    unknown-session error; and in the registry a successful unregistration
    leaves behind, the identity is not found. *)
Theorem registry_register_unregister {S : Type} `{MessageStore S}
  (sessions : gmap SessionID (Registry.session S)) :
  (forall s : Registry.session S,
     is_Some (Registry.lookupSession (Registry.sessionID s) sessions) ->
     Registry.registerSession s sessions = (Some errDuplicateSessionID, sessions)) /\
  (forall sessionID,
     Registry.lookupSession sessionID sessions = None ->
     Registry.UnregisterSession sessionID sessions = (Some errUnknownSession, sessions)) /\
  (forall sessionID sessions',
     Registry.UnregisterSession sessionID sessions = (None, sessions') ->
     Registry.lookupSession sessionID sessions' = None /\
     is_Some (Registry.lookupSession sessionID sessions) /\
     forall other, other <> sessionID ->
       Registry.lookupSession other sessions' = Registry.lookupSession other sessions).
Proof.
  unfold Registry.registerSession, Registry.UnregisterSession, Registry.lookupSession.
  split; [|split].
  - intros s [s0 Hs0]. by rewrite Hs0.
  - intros sid Hnone. by rewrite Hnone.
  - intros sid sessions'. destruct (sessions !! sid) as [s|] eqn:Hs; [|discriminate].
    destruct (Close (Registry.store s)) as [[e|] st]; [discriminate|].
    intros Heq. inversion Heq; subst. split; [apply lookup_delete_eq|].
    split; [by eexists|]. intros other Hne. by apply lookup_delete_ne.
Qed.

(** Registration, a second registration and unregistration of a gorm-backed
    session. *)
Example registry_round_trip :
  Registry.registerSession session_gorm ∅ = (None, {[ sid0 := session_gorm ]}) /\
  Registry.registerSession session_gorm {[ sid0 := session_gorm ]}
  = (Some errDuplicateSessionID, {[ sid0 := session_gorm ]}) /\
  Registry.UnregisterSession sid0 ({[ sid0 := session_gorm ]}
                                   : gmap SessionID (Registry.session GormStore.gromStore))
  = (None, ∅) /\
  Registry.UnregisterSession sid1 ({[ sid0 := session_gorm ]}
                                   : gmap SessionID (Registry.session GormStore.gromStore))
  = (Some errUnknownSession, {[ sid0 := session_gorm ]}).
Proof.
  unfold Registry.registerSession, Registry.UnregisterSession.
  split; [|split; [|split]].
  - by rewrite lookup_empty.
  - simpl. by rewrite lookup_singleton_eq.
  - rewrite lookup_singleton_eq. simpl. by rewrite delete_singleton_eq.
  - rewrite lookup_singleton_ne; [done|discriminate].
Qed.

(** C10. When the identity is registered and the [Close] of its store
    returns an error, [UnregisterSession] returns that error and the registry
    it leaves behind still holds a session of that identity; the other
    entries are as before. *)
Theorem UnregisterSession_close_failure {S : Type} `{MessageStore S}
  (sessionID : SessionID) (s : Registry.session S)
  (sessions : gmap SessionID (Registry.session S)) (err : error) (st : S) :
  Registry.lookupSession sessionID sessions = Some s ->
  Close (Registry.store s) = (Some err, st) ->
  exists sessions' s',
    Registry.UnregisterSession sessionID sessions = (Some err, sessions') /\
    Registry.lookupSession sessionID sessions' = Some s' /\
    Registry.sessionID s' = Registry.sessionID s /\
    forall other, other <> sessionID ->
      Registry.lookupSession other sessions' = Registry.lookupSession other sessions.
Proof.
  unfold Registry.UnregisterSession, Registry.lookupSession.
  intros Hs Hclose. rewrite Hs, Hclose.
  eexists _, _. split; [reflexivity|]. split; [apply lookup_insert_eq|].
  split; [reflexivity|]. intros other Hne. by apply lookup_insert_ne.
Qed.

(** A registered session whose store fails to close stays registered. *)
Lemma UnregisterSession_close_failure_witness :
  exists sessions' s',
    Registry.UnregisterSession sid0 {[ sid0 := session_failing_close ]}
    = (Some ErrDriver, sessions') /\
    Registry.lookupSession sid0 sessions' = Some s' /\
    Registry.sessionID s' = Registry.sessionID session_failing_close /\
    forall other, other <> sid0 ->
      Registry.lookupSession other sessions'
      = Registry.lookupSession other {[ sid0 := session_failing_close ]}.
Proof.
  apply (UnregisterSession_close_failure sid0 session_failing_close
           {[ sid0 := session_failing_close ]} ErrDriver
           (mkBackendStore (Some ErrDriver) true)).
  - apply lookup_singleton_eq.
  - reflexivity.
Defined.

(** ** C7: routing a message by its header *)

Lemma GetField_lookup (fields : gmap Tag string) (tag : Tag) (out : string) :
  GetField fields tag out
  = match fields !! tag with
    | Some v => (None, v)
    | None => (Some (ErrFieldMissing tag), out)
    end.
Proof. reflexivity. Qed.



(** C7. [Send] reads BeginString, TargetCompID and SenderCompID from the
    header, in that order; the first of these reads that fails gives the error
    [Send] returns, whatever the registry holds, and the registry is returned
    as it was.  When the three reads succeed, [Send] is [SendToTarget] on the
    identity made of the three values, with the two sub-identifiers when both
    are non-empty and with none of them otherwise. *)
Theorem Send_derives_session {S M : Type} `{Messagable M}
  (queueForSend : Registry.session S -> Message -> option error * Registry.session S)
  (m : M) (sessions : gmap SessionID (Registry.session S)) :
  let header := Header (ToMessage m) in
  let senderSubID := default "" (header !! tagSenderSubID) in
  let targetSubID := default "" (header !! tagTargetSubID) in
  (forall err,
     fst (GetField header tagBeginString "") = Some err ->
     Registry.Send queueForSend m sessions = (Some err, sessions)) /\
  (forall err,
     fst (GetField header tagBeginString "") = None ->
     fst (GetField header tagTargetCompID "") = Some err ->
     Registry.Send queueForSend m sessions = (Some err, sessions)) /\
  (forall err,
     fst (GetField header tagBeginString "") = None ->
     fst (GetField header tagTargetCompID "") = None ->
     fst (GetField header tagSenderCompID "") = Some err ->
     Registry.Send queueForSend m sessions = (Some err, sessions)) /\
  (forall beginString targetCompID senderCompID,
     GetField header tagBeginString "" = (None, beginString) ->
     GetField header tagTargetCompID "" = (None, targetCompID) ->
     GetField header tagSenderCompID "" = (None, senderCompID) ->
     Registry.Send queueForSend m sessions
     = Registry.SendToTarget queueForSend (ToMessage m)
         (if decide (senderSubID <> "" /\ targetSubID <> "")
          then mkSessionID beginString targetCompID targetSubID ""
                 senderCompID senderSubID "" ""
          else mkSessionID beginString targetCompID "" "" senderCompID "" "" "")
         sessions).
Proof.
  intros header senderSubID targetSubID. unfold Registry.Send. fold header.
  split; [|split; [|split]].
  - intros err Hb. destruct (GetField header tagBeginString "") as [[e|] v];
      simpl in Hb; by inversion Hb.
  - intros err Hb Ht.
    destruct (GetField header tagBeginString "") as [[e|] v]; [discriminate|].
    destruct (GetField header tagTargetCompID "") as [[e|] v'];
      simpl in Ht; by inversion Ht.
  - intros err Hb Ht Hs.
    destruct (GetField header tagBeginString "") as [[e|] v]; [discriminate|].
    destruct (GetField header tagTargetCompID "") as [[e|] v']; [discriminate|].
    destruct (GetField header tagSenderCompID "") as [[e|] v''];
      simpl in Hs; by inversion Hs.
  - intros b t s -> -> ->.
    rewrite !(GetField_lookup header).
    subst senderSubID targetSubID.
    destruct (header !! tagSenderSubID) as [[|a ss]|],
             (header !! tagTargetSubID) as [[|c ts]|]; simpl; reflexivity.
Qed.

(** The boundary between the two keys: with a session registered under the
    key with sub-identifiers only, a message without them finds no session,
    and a message with both is queued on it; a header without its target
    gives the error of that read. *)
Example Send_key_boundary :
  Registry.Send queue_append logon_plain {[ sid0_sub := session_gorm_sub ]}
  = (Some errUnknownSession, {[ sid0_sub := session_gorm_sub ]}) /\
  Registry.Send queue_append logon_sub {[ sid0_sub := session_gorm_sub ]}
  = (None,
     {[ sid0_sub :=
          Registry.mkSession sid0_sub (Registry.store session_gorm_sub) [logon_sub] ]}) /\
  Registry.Send queue_append logon_no_target {[ sid0_sub := session_gorm_sub ]}
  = (Some (ErrFieldMissing tagTargetCompID), {[ sid0_sub := session_gorm_sub ]}).
Proof.
  split; [|split].
  - unfold Registry.Send, Registry.SendToTarget, Registry.lookupSession. simpl.
    vm_compute GetField. simpl.
    rewrite lookup_singleton_ne; [done|discriminate].
  - unfold Registry.Send, Registry.SendToTarget, Registry.lookupSession. simpl.
    vm_compute GetField. simpl.
    change (mkSessionID "FIX.4.2" "TARGET" "DESK" "" "SENDER" "OPS" "" "") with sid0_sub.
    rewrite lookup_singleton_eq. simpl. by rewrite insert_singleton_eq.
  - unfold Registry.Send. simpl. by vm_compute GetField.
Qed.

(** ** C8: reading a range of the log *)

Lemma scan_rows_all_ok (rows : list GormMessages) (msgs : list (list Byte.byte)) :
  GormStore.scan_rows (List.map (fun r => Ok (message r)) rows) msgs
  = Ok (msgs ++ List.map payload rows).
Proof.
  revert msgs. induction rows as [|r rows IH]; intros msgs; simpl.
  - by rewrite app_nil_r.
  - rewrite IH. by rewrite <- app_assoc.
Qed.

Lemma filter_session_range s b e rows :
  List.filter (fun r => Gorm.msg_of_session s r && Gorm.in_range b e r) rows
  = List.filter (Gorm.in_range b e) (List.filter (Gorm.msg_of_session s) rows).
Proof.
  induction rows as [|r rows IH]; simpl; [done|].
  destruct (Gorm.msg_of_session s r); simpl; [|done].
  destruct (Gorm.in_range b e r); by rewrite IH.
Qed.

(** [GetMessages] returns the payloads of the selected rows, and fails only
    on a scripted fault or a missing table. *)
Lemma GetMessages_inv store b e d :
  match GormStore.GetMessages store b e d with
  | (Ok msgs, d') =>
      same_tables d d' /\
      exists rows, messages_tbl d = Some rows /\
        msgs = List.map payload (Gorm.select_range (GormStore.sessionID store) b e rows)
  | (Err _, d') =>
      same_tables d d' /\ (faults d <> [] \/ messages_tbl d = None)
  end.
Proof.
  unfold GormStore.GetMessages, Gorm.Raw_select_messages, Gorm.stmt.
  destruct (faults d) as [|[] fs] eqn:Hf; simpl;
    destruct (messages_tbl d) as [rows|] eqn:Hm; simpl;
    rewrite ?scan_rows_all_ok; simpl;
    (split; [by repeat split|]); eauto.
Qed.

(** C8. A successful [GetMessages] returns the payloads of entries that are,
    up to their order, exactly the stored entries of the session whose
    sequence number lies in [beginSeqNum, endSeqNum], and that come in
    ascending order of sequence number; the result is empty when the range is
    empty or holds no entry.  [GetMessages] changes no table, and it fails
    only when the connection fails or the table is missing. *)
Theorem GetMessages_range
  (store : GormStore.gromStore) (beginSeqNum endSeqNum : Z) (d : DB) :
  let s := GormStore.sessionID store in
  let in_log := List.filter (Gorm.in_range beginSeqNum endSeqNum) (message_rows s d) in
  match GormStore.GetMessages store beginSeqNum endSeqNum d with
  | (Ok msgs, d') =>
      same_tables d d' /\
      (exists entries,
         msgs = List.map payload entries /\
         entries ≡ₚ in_log /\
         StronglySorted Gorm.seq_le entries /\
         Forall (fun r => gm_session r = s /\
                          beginSeqNum <= msgseqnum r <= endSeqNum) entries) /\
      (endSeqNum < beginSeqNum -> msgs = []) /\
      (in_log = [] -> msgs = [])
  | (Err _, d') =>
      same_tables d d' /\ (faults d <> [] \/ messages_tbl d = None)
  end.
Proof.
  intros s in_log. pose proof (GetMessages_inv store beginSeqNum endSeqNum d) as Hinv.
  destruct (GormStore.GetMessages store beginSeqNum endSeqNum d) as [[msgs|err] d'];
    [|exact Hinv].
  destruct Hinv as (Ht & rows & Hm & ->). fold s.
  assert (in_log = List.filter
            (fun r => Gorm.msg_of_session s r && Gorm.in_range beginSeqNum endSeqNum r)
            rows) as Hlog.
  { subst in_log. unfold message_rows. rewrite Hm. by rewrite filter_session_range. }
  assert (Gorm.select_range s beginSeqNum endSeqNum rows ≡ₚ in_log) as Hperm.
  { rewrite Hlog. apply merge_sort_Permutation. }
  assert (Forall (fun r => gm_session r = s /\
                           beginSeqNum <= msgseqnum r <= endSeqNum) in_log) as Hall.
  { rewrite Hlog. apply List.Forall_forall. intros r Hin.
    apply filter_In in Hin as (_ & Hr). apply andb_prop in Hr as (Hs & Hr).
    unfold Gorm.msg_of_session in Hs. apply bool_decide_eq_true_1 in Hs.
    unfold Gorm.in_range in Hr. apply andb_prop in Hr as (H1 & H2).
    split; [done|]. lia. }
  assert (in_log = [] -> List.map payload (Gorm.select_range s beginSeqNum endSeqNum rows) = [])
    as Hempty.
  { intros Hnil. unfold Gorm.select_range. rewrite <- Hlog, Hnil. reflexivity. }
  split; [exact Ht|]. split; [|split; [|exact Hempty]].
  - exists (Gorm.select_range s beginSeqNum endSeqNum rows).
    split; [reflexivity|]. split; [exact Hperm|].
    split; [apply StronglySorted_merge_sort; apply _|].
    by rewrite Hperm.
  - intros Hlt. apply Hempty.
    destruct in_log as [|r rest]; [done|].
    apply Forall_cons in Hall as ((_ & Hr) & _). lia.
Qed.

(** The log of [sid0] in [db_logged], asked for in full, for an empty range
    and for a range that holds no entry. *)
Example GetMessages_logged :
  GormStore.GetMessages store_fresh 1 2 db_logged
  = (Ok [list_byte_of_string "35=A|34=1"; list_byte_of_string "35=0|34=2"], db_logged) /\
  GormStore.GetMessages store_fresh 2 1 db_logged = (Ok [], db_logged) /\
  GormStore.GetMessages store_fresh 5 9 db_logged = (Ok [], db_logged) /\
  GormStore.GetMessages store_fresh 1 2 (set_faults [true] db_logged)
  = (Err ErrDriver, db_logged).
Proof. repeat split; by vm_compute. Qed.

(** ** C9: resetting the store *)

Lemma filter_other_sessions_none s rows :
  List.filter (Gorm.msg_of_session s)
    (List.filter (fun r => negb (Gorm.msg_of_session s r)) rows) = [].
Proof.
  induction rows as [|r rows IH]; simpl; [done|].
  destruct (Gorm.msg_of_session s r) eqn:Hr; simpl; [done|]. by rewrite Hr.
Qed.

Lemma filter_other_sessions_keep s s' rows :
  s' <> s ->
  List.filter (Gorm.msg_of_session s')
    (List.filter (fun r => negb (Gorm.msg_of_session s r)) rows)
  = List.filter (Gorm.msg_of_session s') rows.
Proof.
  intros Hne. induction rows as [|r rows IH]; simpl; [done|].
  unfold Gorm.msg_of_session at 2 4.
  destruct (decide (gm_session r = s)) as [Hs|Hs].
  - rewrite (bool_decide_eq_true_2 _ Hs). simpl.
    unfold Gorm.msg_of_session at 2.
    rewrite bool_decide_eq_false_2 by congruence. exact IH.
  - rewrite (bool_decide_eq_false_2 _ Hs). simpl. by rewrite IH.
Qed.

Lemma Delete_messages_inv s d r d' :
  Gorm.Delete_messages s d = (r, d') ->
  match r with
  | Ok _ =>
      sessions_tbl d' = sessions_tbl d /\
      is_Some (messages_tbl d') /\
      message_rows s d' = [] /\
      forall s', s' <> s -> message_rows s' d' = message_rows s' d
  | Err _ => same_tables d d'
  end.
Proof.
  unfold Gorm.Delete_messages. intros H. stmt_cases H; [done|].
  destruct Ht as (T1 & T2 & T3).
  destruct (messages_tbl d0) as [rows|] eqn:Hm; inversion Hb; subst.
  - unfold message_rows. simpl. rewrite <- T2.
    split; [congruence|]. split; [by eexists|].
    split; [apply filter_other_sessions_none|].
    intros s' Hne. by apply filter_other_sessions_keep.
  - repeat split; congruence.
Qed.

Lemma select_range_no_rows s b e d rows :
  message_rows s d = [] -> messages_tbl d = Some rows ->
  Gorm.select_range s b e rows = [].
Proof.
  unfold message_rows, Gorm.select_range. intros Hnil Hm. rewrite Hm in Hnil.
  by rewrite filter_session_range, Hnil.
Qed.

(** C9. A [Reset] that returns [nil] has deleted every log entry of the
    session and left those of other sessions, has put the cache at [now], [1]
    and [1], and has written these three values into every record of the
    session, adding none; right after it both sequence numbers read [1] and
    [GetMessages] over any range returns the empty sequence, unless the
    connection fails it.  The steps come in that order: a [Reset] that returns
    an error has either failed in the deletion, and then changed nothing, or
    failed in the final update, and then the log of the session is already
    empty and the cache already reads [1] and [1]. *)
Theorem Reset_restarts_session (store : GormStore.gromStore) (now : Z) (d : DB) :
  let s := GormStore.sessionID store in
  match GormStore.Reset store now d with
  | (None, store', d') =>
      GormStore.sessionID store' = s /\
      GormStore.NextSenderMsgSeqNum store' = 1 /\
      GormStore.NextTargetMsgSeqNum store' = 1 /\
      GormStore.CreationTime store' = now /\
      message_rows s d' = [] /\
      (forall s', s' <> s -> message_rows s' d' = message_rows s' d) /\
      session_rows s d'
      = List.map (fun r => mkGormSessions (gs_session r) now 1 1) (session_rows s d) /\
      (forall b e,
         match GormStore.GetMessages store' b e d' with
         | (Ok msgs, _) => msgs = []
         | (Err _, _) => faults d' <> []
         end)
  | (Some _, store', d') =>
      (store' = store /\ same_tables d d')
      \/ (GormStore.NextSenderMsgSeqNum store' = 1 /\
          GormStore.NextTargetMsgSeqNum store' = 1 /\
          message_rows s d' = [] /\
          session_rows s d' = session_rows s d)
  end.
Proof.
  intros s. unfold GormStore.Reset. fold s.
  destruct (Gorm.Delete_messages s d) as [r1 d1] eqn:Hdel.
  apply Delete_messages_inv in Hdel.
  destruct r1 as [u|e1]; [|by left].
  destruct Hdel as (Hsess & Hsome & Hnone & Hother). simpl.
  destruct (Gorm.Update_sessions s _ d1) as [r2 d2] eqn:Hupd.
  pose proof Hupd as Hinv.
  apply Update_sessions_inv in Hinv as [(e2 & -> & Ht)|(-> & Hm2 & _ & rows & Hr & Hr')].
  - right. simpl. split; [done|]. split; [done|].
    rewrite (message_rows_same_tables s d1 d2 Ht).
    rewrite (session_rows_same_tables s d1 d2 Ht).
    split; [done|]. unfold session_rows. by rewrite Hsess.
  - simpl.
    assert (forall s', message_rows s' d2 = message_rows s' d1) as Hmsgs.
    { intros s'. unfold message_rows. by rewrite Hm2. }
    split; [done|]. split; [done|]. split; [done|]. split; [done|].
    split; [by rewrite Hmsgs|].
    split; [intros s' Hne; rewrite Hmsgs; by apply Hother|].
    split.
    + rewrite (Update_sessions_rows s
                 (GormStore.reset_columns (MemoryStore.mk now 1 1)) d1 d2
                 (fun x => eq_refl) Hupd).
      unfold session_rows. by rewrite Hsess.
    + intros b e.
      pose proof (GetMessages_inv
                    (GormStore.with_cache (MemoryStore.mk now 1 1) store) b e d2) as Hget.
      destruct (GormStore.GetMessages _ b e d2) as [[msgs|err] d3].
      * destruct Hget as (_ & rows' & Hrows' & ->).
        rewrite (select_range_no_rows _ b e d2 rows'); [done| |done].
        simpl. fold s. by rewrite Hmsgs.
      * destruct Hget as (_ & [Hf|Hnone']); [done|].
        rewrite Hm2 in Hnone'. rewrite Hnone' in Hsome. by destruct Hsome.
Qed.

(** The reset of [sid0] over [db_logged]: its two entries go, the entry of
    [sid1] stays, the record is rewritten; and with the final update failing,
    the log is already empty and the cache already reset. *)
Example Reset_logged :
  GormStore.Reset (GormStore.mkStore sid0 (MemoryStore.mk 100 3 1) true) 200 db_logged
  = (None,
     GormStore.mkStore sid0 (MemoryStore.mk 200 1 1) true,
     mkDB (Some [mkGormSessions sid0 200 1 1])
          (Some [mkGormMessages sid1 1 "35=A|34=1"]) None []) /\
  GormStore.Reset (GormStore.mkStore sid0 (MemoryStore.mk 100 3 1) true) 200
    (set_faults [false; true] db_logged)
  = (Some ErrDriver,
     GormStore.mkStore sid0 (MemoryStore.mk 200 1 1) true,
     mkDB (Some [mkGormSessions sid0 100 1 3])
          (Some [mkGormMessages sid1 1 "35=A|34=1"]) None []).
Proof. split; by vm_compute. Qed.

(** * Further properties of the store *)

(** ** Table creation *)

Lemma HasTable_sessions d :
  Gorm.HasTable "sessions" d = bool_decide (is_Some (sessions_tbl d)).
Proof. reflexivity. Qed.

Lemma HasTable_messages d :
  Gorm.HasTable "messages" d = bool_decide (is_Some (messages_tbl d)).
Proof. reflexivity. Qed.

(** What [initTables] leaves behind: the rows of both tables as they were,
    and both tables in place when it returns [nil]. *)
Lemma initTables_post store d r d' :
  GormStore.initTables store d = (r, d') ->
  (forall s, session_rows s d' = session_rows s d) /\
  (forall s, message_rows s d' = message_rows s d) /\
  fix_test_tbl d' = fix_test_tbl d /\
  (r = None -> is_Some (sessions_tbl d') /\ is_Some (messages_tbl d')) /\
  (faults d = [] -> r = None /\ faults d' = []).
Proof.
  unfold GormStore.initTables. rewrite HasTable_sessions.
  unfold Gorm.CreateTable_sessions, Gorm.CreateTable_messages, Gorm.stmt,
    session_rows, message_rows.
  destruct d as [st mt ft fs].
  destruct st as [srows|], mt as [mrows|], fs as [|[] [|[] fs]]; simpl;
    intros H; inversion H; subst; simpl;
    repeat split; eauto; try discriminate.
Qed.


(** From a blank database, with the first statement failing, and run twice. *)
Example initTables_blank :
  GormStore.initTables store_fresh db_blank = (None, mkDB (Some []) (Some []) None []) /\
  GormStore.initTables store_fresh (set_faults [true] db_blank)
  = (Some (Wrap ErrDriver "gromStore.initTables err"), db_blank) /\
  GormStore.initTables store_fresh (set_faults [true] db_fresh)
  = (None, set_faults [true] db_fresh).
Proof. repeat split; by vm_compute. Qed.

(** ** First load and reload *)

Lemma existsb_filter_nil {A : Type} (f : A -> bool) (l : list A) :
  List.filter f l = [] -> existsb f l = false.
Proof.
  induction l as [|x l IH]; simpl; [done|].
  destruct (f x); [discriminate|]. exact IH.
Qed.

Lemma filter_app_other s s' (row : GormSessions) rows :
  gs_session row = s -> s' <> s ->
  List.filter (Gorm.of_session s') (rows ++ [row]) = List.filter (Gorm.of_session s') rows.
Proof.
  intros Hrow Hne. rewrite List.filter_app. simpl.
  unfold Gorm.of_session at 2. rewrite bool_decide_eq_false_2 by congruence.
  by rewrite app_nil_r.
Qed.

(** The populate step in full: over a record of the session it loads the
    record and writes nothing; without one it inserts the cache's values as
    the record of the session and leaves the cache. *)
Lemma populateCache_inv store d res store' d' :
  let s := GormStore.sessionID store in
  let c := GormStore.cache store in
  let row := mkGormSessions s (MemoryStore.creationTime c)
               (MemoryStore.NextTargetMsgSeqNum c) (MemoryStore.NextSenderMsgSeqNum c) in
  GormStore.populateCache store d = (res, store', d') ->
  messages_tbl d' = messages_tbl d /\
  fix_test_tbl d' = fix_test_tbl d /\
  match session_rows s d with
  | r :: _ =>
      sessions_tbl d' = sessions_tbl d /\
      (res = None ->
       store' = GormStore.with_cache
                  (MemoryStore.mk (CreationTime r) (OutgoingSeqNum r) (IncomingSeqNum r))
                  store) /\
      (faults d = [] -> res = None /\ d' = d)
  | [] =>
      store' = store /\
      (res = None ->
       (forall s', s' <> s -> session_rows s' d' = session_rows s' d) /\
       session_rows s d' = [row]) /\
      (res <> None -> sessions_tbl d' = sessions_tbl d) /\
      (faults d = [] -> is_Some (sessions_tbl d) -> res = None /\ faults d' = [])
  end.
Proof.
  intros s c row.
  unfold GormStore.populateCache, Gorm.First_session, Gorm.Insert_session, Gorm.stmt,
    session_rows.
  fold s c. fold row.
  destruct d as [st mt ft fs]. simpl.
  destruct st as [rows|]; simpl.
  - destruct (List.filter (Gorm.of_session s) rows) as [|r rest] eqn:Hfl.
    + pose proof (existsb_filter_nil _ _ Hfl) as Hex.
      destruct fs as [|[] [|[] fs]]; simpl; rewrite ?Hex; simpl;
        intros H; inversion H; subst; simpl;
        (split; [done|]); (split; [done|]); (split; [done|]);
        repeat split; try done; try (intros; discriminate);
        try (intros s' Hne; exact (filter_app_other s s' row rows eq_refl Hne));
        try (rewrite List.filter_app, Hfl; simpl; unfold Gorm.of_session; simpl;
             by rewrite bool_decide_eq_true_2).
    + destruct fs as [|[] fs]; simpl;
        intros H; inversion H; subst; simpl;
        repeat split; try done; try (intros; discriminate).
  - destruct fs as [|[] [|[] fs]]; simpl;
      intros H; inversion H; subst; simpl;
      repeat split; try done; try (intros; discriminate);
      try (by intros _ [? ?]).
Qed.

Lemma Create_ok_inv f sid now d store d' :
  GormStore.Create f sid now d = (Ok store, d') ->
  exists d1,
    GormStore.initTables (GormStore.mkStore sid MemoryStore.empty true) d = (None, d1) /\
    GormStore.populateCache
      (GormStore.mkStore sid (MemoryStore.mk now 1 1) true) d1 = (None, store, d').
Proof.
  unfold GormStore.Create.
  destruct (if HasSetting _ _ then _ else _) as [dyn|e]; [|discriminate].
  destruct (negb _ && negb dyn); [discriminate|].
  destruct (GormStore.initTables _ d) as [[e|] d1]; [discriminate|].
  simpl. unfold GormStore.with_cache. simpl.
  destruct (GormStore.populateCache _ d1) as [[[e|] st] d2] eqn:Hp; [discriminate|].
  intros H; inversion H; subst. exists d1. by split.
Qed.

(** X2. First use.  On a connection without faults, [Create] of an admitted
    session that has no record yet succeeds: it returns a store that reads
    creation time [now] and [1] for both sequence numbers, and it has inserted
    exactly that as the one record of the session, keeping the records of
    other sessions and every log entry. *)
Theorem Create_first_use
  (f : GormStore.gormStoreFactory) (sid : SessionID) (now : Z) (d : DB) (dyn : bool) :
  faults d = [] ->
  (if HasSetting (globalSettings (GormStore.settings f)) DynamicSessions
   then BoolSetting (globalSettings (GormStore.settings f)) DynamicSessions
   else Ok false) = Ok dyn ->
  is_Some (sessionSettings (GormStore.settings f) !! sid) \/ dyn = true ->
  session_rows sid d = [] ->
  exists d',
    GormStore.Create f sid now d
    = (Ok (GormStore.mkStore sid (MemoryStore.mk now 1 1) true), d') /\
    session_rows sid d' = [mkGormSessions sid now 1 1] /\
    (forall s', s' <> sid -> session_rows s' d' = session_rows s' d) /\
    (forall s, message_rows s d' = message_rows s d) /\
    Gorm.HasTable "messages" d' = true /\
    faults d' = [].
Proof.
  intros Hf Hflag Hadm Hrows. unfold GormStore.Create. rewrite Hflag.
  assert (negb (bool_decide (is_Some (sessionSettings (GormStore.settings f) !! sid)))
          && negb dyn = false) as ->.
  { destruct Hadm as [Hc| ->]; [|by rewrite andb_false_r].
    by rewrite (bool_decide_eq_true_2 _ Hc). }
  destruct (GormStore.initTables _ d) as [r1 d1] eqn:Hinit.
  apply initTables_post in Hinit as (Hs1 & Hm1 & _ & Hex & Hnf).
  destruct (Hnf Hf) as (-> & Hf1). destruct (Hex eq_refl) as (Hst & Hmt).
  simpl. unfold GormStore.with_cache. simpl.
  destruct (GormStore.populateCache _ d1) as [[r2 store'] d2] eqn:Hp.
  apply populateCache_inv in Hp as (Hm2 & _ & Hp). simpl in Hp.
  rewrite Hs1, Hrows in Hp. destruct Hp as (-> & Hok & _ & Hnf2).
  destruct (Hnf2 Hf1 Hst) as (-> & Hf2). destruct (Hok eq_refl) as (Hothers & Hown).
  exists d2. split; [reflexivity|]. split; [exact Hown|].
  split; [intros s' Hne; by rewrite Hothers, Hs1|].
  split; [intros s; rewrite <- Hm1; unfold message_rows; by rewrite Hm2|].
  split; [|exact Hf2].
  rewrite HasTable_messages, Hm2. by apply bool_decide_eq_true_2.
Qed.

(** [Create] of [sid0] on a blank database. *)
Lemma Create_first_use_witness :
  exists d',
    GormStore.Create (GormStore.NewGormStoreFactory static_settings) sid0 100 db_blank
    = (Ok (GormStore.mkStore sid0 (MemoryStore.mk 100 1 1) true), d') /\
    session_rows sid0 d' = [mkGormSessions sid0 100 1 1] /\
    (forall s', s' <> sid0 -> session_rows s' d' = session_rows s' db_blank) /\
    (forall s, message_rows s d' = message_rows s db_blank) /\
    Gorm.HasTable "messages" d' = true /\
    faults d' = [].
Proof.
  apply (Create_first_use (GormStore.NewGormStoreFactory static_settings)
           sid0 100 db_blank false).
  - reflexivity.
  - reflexivity.
  - left. by eexists; vm_compute.
  - reflexivity.
Defined.

(** X3. Reload.  When the session already has a record, a successful
    [Create] returns a store whose cache is that record: its creation time,
    not [now], and its two sequence numbers.  [Create] then changes no stored
    row. *)
Theorem Create_loads_record
  (f : GormStore.gormStoreFactory) (sid : SessionID) (now : Z) (d : DB)
  (r : GormSessions) (rest : list GormSessions)
  (store : GormStore.gromStore) (d' : DB) :
  session_rows sid d = r :: rest ->
  GormStore.Create f sid now d = (Ok store, d') ->
  store = GormStore.mkStore sid
            (MemoryStore.mk (CreationTime r) (OutgoingSeqNum r) (IncomingSeqNum r)) true /\
  (forall s, session_rows s d' = session_rows s d) /\
  (forall s, message_rows s d' = message_rows s d).
Proof.
  intros Hrows Hcreate.
  apply Create_ok_inv in Hcreate as (d1 & Hinit & Hp).
  apply initTables_post in Hinit as (Hs1 & Hm1 & _).
  apply populateCache_inv in Hp as (Hm2 & _ & Hp). simpl in Hp.
  rewrite Hs1, Hrows in Hp. destruct Hp as (Hs2 & Hok & _).
  split; [by apply Hok|]. split; intros s.
  - rewrite <- Hs1. unfold session_rows. by rewrite Hs2.
  - rewrite <- Hm1. unfold message_rows. by rewrite Hm2.
Qed.

(** [Create] of [sid0] over [db_logged], whose record reads [100], [1], [3]. *)
Lemma Create_loads_record_witness :
  GormStore.mkStore sid0 (MemoryStore.mk 100 3 1) true
  = GormStore.mkStore sid0
      (MemoryStore.mk (CreationTime (mkGormSessions sid0 100 1 3))
         (OutgoingSeqNum (mkGormSessions sid0 100 1 3))
         (IncomingSeqNum (mkGormSessions sid0 100 1 3))) true /\
  (forall s, session_rows s db_logged = session_rows s db_logged) /\
  (forall s, message_rows s db_logged = message_rows s db_logged).
Proof.
  apply (Create_loads_record (GormStore.NewGormStoreFactory static_settings)
           sid0 999 db_logged (mkGormSessions sid0 100 1 3) []
           (GormStore.mkStore sid0 (MemoryStore.mk 100 3 1) true) db_logged).
  - reflexivity.
  - by vm_compute.
Defined.

(** ** What the sequence-number calls leave alone *)

Lemma filter_map_update_other s s' (f : GormSessions -> GormSessions) rows :
  (forall x, gs_session (f x) = gs_session x) -> s' <> s ->
  List.filter (Gorm.of_session s')
    (List.map (fun x => if Gorm.of_session s x then f x else x) rows)
  = List.filter (Gorm.of_session s') rows.
Proof.
  intros Hf Hne. induction rows as [|x rows IH]; simpl; [done|].
  destruct (Gorm.of_session s x) eqn:Hx.
  - apply bool_decide_eq_true_1 in Hx.
    assert (Gorm.of_session s' (f x) = false) as ->.
    { apply bool_decide_eq_false_2. rewrite Hf. congruence. }
    assert (Gorm.of_session s' x = false) as ->.
    { apply bool_decide_eq_false_2. congruence. }
    exact IH.
  - destruct (Gorm.of_session s' x); by rewrite IH.
Qed.

(** An [UPDATE] of the records of [s] leaves the log, the records of other
    sessions, and, when it fails, the records of [s] too. *)
Lemma Update_sessions_frame s (f : GormSessions -> GormSessions) d r d' :
  (forall x, gs_session (f x) = gs_session x) ->
  Gorm.Update_sessions s f d = (r, d') ->
  messages_tbl d' = messages_tbl d /\
  fix_test_tbl d' = fix_test_tbl d /\
  (forall s', s' <> s -> session_rows s' d' = session_rows s' d) /\
  session_rows s d'
  = match r with
    | Ok _ => List.map f (session_rows s d)
    | Err _ => session_rows s d
    end.
Proof.
  intros Hf Hu. pose proof Hu as Hinv.
  apply Update_sessions_inv in Hinv
    as [(err & -> & (T1 & T2 & T3))|(-> & T2 & T3 & rows & Hr & Hr')].
  - repeat split; auto; intros; unfold session_rows; by rewrite T1.
  - split; [done|]. split; [done|]. split.
    + intros s' Hne. unfold session_rows. rewrite Hr, Hr'.
      by apply filter_map_update_other.
    + by apply Update_sessions_rows.
Qed.

(** X4. The setters write one column of one session.  Whatever
    [SetNextSenderMsgSeqNum] returns, the store keeps its identity, creation
    time and next target sequence number, the log and the records of every
    other session are as before, no record of the session is added or
    removed, and the creation time and incoming sequence number of its records
    are untouched; the same holds for [SetNextTargetMsgSeqNum] with the two
    directions exchanged. *)
Theorem setters_write_one_column (store : GormStore.gromStore) (n : Z) (d : DB) :
  let s := GormStore.sessionID store in
  (let '(_, store', d') := GormStore.SetNextSenderMsgSeqNum store n d in
   GormStore.sessionID store' = s /\
   GormStore.CreationTime store' = GormStore.CreationTime store /\
   GormStore.NextTargetMsgSeqNum store' = GormStore.NextTargetMsgSeqNum store /\
   messages_tbl d' = messages_tbl d /\
   (forall s', s' <> s -> session_rows s' d' = session_rows s' d) /\
   List.map CreationTime (session_rows s d') = List.map CreationTime (session_rows s d) /\
   List.map IncomingSeqNum (session_rows s d')
   = List.map IncomingSeqNum (session_rows s d)) /\
  (let '(_, store', d') := GormStore.SetNextTargetMsgSeqNum store n d in
   GormStore.sessionID store' = s /\
   GormStore.CreationTime store' = GormStore.CreationTime store /\
   GormStore.NextSenderMsgSeqNum store' = GormStore.NextSenderMsgSeqNum store /\
   messages_tbl d' = messages_tbl d /\
   (forall s', s' <> s -> session_rows s' d' = session_rows s' d) /\
   List.map CreationTime (session_rows s d') = List.map CreationTime (session_rows s d) /\
   List.map OutgoingSeqNum (session_rows s d')
   = List.map OutgoingSeqNum (session_rows s d)).
Proof.
  intros s. split.
  - unfold GormStore.SetNextSenderMsgSeqNum. fold s.
    destruct (Gorm.Update_sessions s (GormStore.set_outgoing n) d) as [r d1] eqn:Hu.
    apply Update_sessions_frame in Hu as (Hm & _ & Hothers & Hown); [|done].
    destruct r as [u|e]; simpl; rewrite Hown;
      repeat split; auto; by rewrite List.map_map.
  - unfold GormStore.SetNextTargetMsgSeqNum. fold s.
    destruct (Gorm.Update_sessions s (GormStore.set_incoming n) d) as [r d1] eqn:Hu.
    apply Update_sessions_frame in Hu as (Hm & _ & Hothers & Hown); [|done].
    destruct r as [u|e]; simpl; rewrite Hown;
      repeat split; auto; by rewrite List.map_map.
Qed.

Lemma IncrNextTargetMsgSeqNum_outcomes (store : GormStore.gromStore) (d : DB) :
  let s := GormStore.sessionID store in
  let n := GormStore.NextTargetMsgSeqNum store in
  match GormStore.IncrNextTargetMsgSeqNum store d with
  | (Some err, store', d') =>
      (n >= max_int /\ err = Wrap ErrSeqNumOverflow "cache incr next" /\
       store' = store /\ d' = d)
      \/ (n < max_int /\ same_tables d d')
  | (None, store', d') =>
      n < max_int /\
      store' = GormStore.with_cache
                 (MemoryStore.mk (GormStore.CreationTime store)
                    (GormStore.NextSenderMsgSeqNum store) (n + 1)) store /\
      session_rows s d' = List.map (GormStore.set_incoming (n + 1)) (session_rows s d)
  end.
Proof.
  intros s n. unfold GormStore.IncrNextTargetMsgSeqNum.
  unfold MemoryStore.IncrNextTargetMsgSeqNum.
  destruct (decide (MemoryStore.nextTargetSeqNum (GormStore.cache store) < max_int))
    as [Hlt|Hge].
  - match goal with
    | |- context [GormStore.SetNextTargetMsgSeqNum ?st ?k d] =>
        pose proof (SetNextTargetMsgSeqNum_inv st k d) as Hset;
        destruct (GormStore.SetNextTargetMsgSeqNum st k d) as [[[err|] store'] d']
    end; simpl in Hset.
    + right. destruct Hset as (_ & -> & Ht). by split.
    + destruct Hset as (_ & -> & Hrows). split; [exact Hlt|]. by split.
  - left. split; [|split; [reflexivity|split; [by destruct store|reflexivity]]].
    unfold n, GormStore.NextTargetMsgSeqNum, MemoryStore.NextTargetMsgSeqNum. lia.
Qed.

Lemma IncrNextSenderMsgSeqNum_ok (store : GormStore.gromStore) (d : DB) store' d' :
  GormStore.IncrNextSenderMsgSeqNum store d = (None, store', d') ->
  store' = GormStore.with_cache
             (MemoryStore.mk (GormStore.CreationTime store)
                (GormStore.NextSenderMsgSeqNum store + 1)
                (GormStore.NextTargetMsgSeqNum store)) store /\
  session_rows (GormStore.sessionID store) d'
  = List.map (GormStore.set_outgoing (GormStore.NextSenderMsgSeqNum store + 1))
      (session_rows (GormStore.sessionID store) d).
Proof.
  unfold GormStore.IncrNextSenderMsgSeqNum, MemoryStore.IncrNextSenderMsgSeqNum.
  destruct (decide _) as [Hlt|Hge]; [|discriminate].
  match goal with
  | |- context [GormStore.SetNextSenderMsgSeqNum ?st ?k d] =>
      pose proof (SetNextSenderMsgSeqNum_inv st k d) as Hset;
      destruct (GormStore.SetNextSenderMsgSeqNum st k d) as [[[err|] st'] d1]
  end; simpl in Hset; [discriminate|].
  intros H; inversion H; subst. by destruct Hset as (_ & -> & Hrows).
Qed.

(** X5. A successful increment advances one direction by exactly one, in
    the cache and in the records of the session, and leaves the other
    direction and the creation time as they were, in both places. *)
Theorem incr_advances_one_direction (store : GormStore.gromStore) (d : DB) :
  let s := GormStore.sessionID store in
  (forall store' d',
     GormStore.IncrNextSenderMsgSeqNum store d = (None, store', d') ->
     GormStore.NextSenderMsgSeqNum store' = GormStore.NextSenderMsgSeqNum store + 1 /\
     GormStore.NextTargetMsgSeqNum store' = GormStore.NextTargetMsgSeqNum store /\
     GormStore.CreationTime store' = GormStore.CreationTime store /\
     Forall (fun r => OutgoingSeqNum r = GormStore.NextSenderMsgSeqNum store + 1)
       (session_rows s d') /\
     List.map IncomingSeqNum (session_rows s d')
     = List.map IncomingSeqNum (session_rows s d) /\
     List.map CreationTime (session_rows s d') = List.map CreationTime (session_rows s d))
  /\
  (forall store' d',
     GormStore.IncrNextTargetMsgSeqNum store d = (None, store', d') ->
     GormStore.NextTargetMsgSeqNum store' = GormStore.NextTargetMsgSeqNum store + 1 /\
     GormStore.NextSenderMsgSeqNum store' = GormStore.NextSenderMsgSeqNum store /\
     GormStore.CreationTime store' = GormStore.CreationTime store /\
     Forall (fun r => IncomingSeqNum r = GormStore.NextTargetMsgSeqNum store + 1)
       (session_rows s d') /\
     List.map OutgoingSeqNum (session_rows s d')
     = List.map OutgoingSeqNum (session_rows s d) /\
     List.map CreationTime (session_rows s d') = List.map CreationTime (session_rows s d)).
Proof.
  intros s. split; intros store' d' Hincr.
  - apply IncrNextSenderMsgSeqNum_ok in Hincr as (-> & Hrows). fold s in Hrows.
    rewrite Hrows, !List.map_map. simpl.
    repeat split. apply List.Forall_map, Forall_true. by intros x.
  - pose proof (IncrNextTargetMsgSeqNum_outcomes store d) as Hout.
    rewrite Hincr in Hout. simpl in Hout. destruct Hout as (_ & -> & Hrows).
    fold s in Hrows. rewrite Hrows, !List.map_map. simpl.
    repeat split. apply List.Forall_map, Forall_true. by intros x.
Qed.

(** Three calls on [store_fresh]: both directions advance independently. *)
Example incr_both_directions :
  do_calls [CallIncrNextSender; CallIncrNextTarget; CallIncrNextSender]
    store_fresh db_fresh
  = (None,
     GormStore.mkStore sid0 (MemoryStore.mk 100 3 2) true,
     mkDB (Some [mkGormSessions sid0 100 2 3]) (Some []) None []).
Proof. by vm_compute. Qed.

(** ** Saving messages *)

Lemma Insert_message_inv row d r d' :
  Gorm.Insert_message row d = (r, d') ->
  sessions_tbl d' = sessions_tbl d /\
  fix_test_tbl d' = fix_test_tbl d /\
  match r with
  | Ok _ =>
      exists rows, messages_tbl d = Some rows /\
        existsb (Gorm.same_key (gm_session row) (msgseqnum row)) rows = false /\
        messages_tbl d' = Some (rows ++ [row])
  | Err e => messages_tbl d' = messages_tbl d /\ e <> ErrTest
  end /\
  (faults d = [] -> faults d' = [] /\
     (r = Err ErrDuplicateKey \/ r = Err (ErrNoSuchTable "messages") \/ r = Ok tt)).
Proof.
  unfold Gorm.Insert_message, Gorm.stmt.
  destruct d as [st mt ft fs]. simpl.
  destruct fs as [|[] fs]; simpl; destruct mt as [rows|]; simpl;
    try destruct (existsb _ rows) eqn:Hex;
    intros H; inversion H; subst; simpl; repeat split; eauto; discriminate.
Qed.

Lemma Count_fix_test_open_no_fault d :
  faults d = [] -> snd (Gorm.Count_fix_test_open d) = d.
Proof.
  intros Hf. unfold Gorm.Count_fix_test_open. rewrite stmt_no_fault by done.
  by destruct (fix_test_tbl d).
Qed.

Lemma Count_messages_no_fault s n d rows :
  faults d = [] -> messages_tbl d = Some rows ->
  Gorm.Count_messages s n d = (Ok (Z.of_nat (length (log_entries s n d))), d).
Proof.
  intros Hf Hm. unfold Gorm.Count_messages, log_entries.
  rewrite stmt_no_fault by done. by rewrite Hm.
Qed.

Lemma log_entries_same_tables s n d d' :
  messages_tbl d' = messages_tbl d -> log_entries s n d' = log_entries s n d.
Proof. intros H. unfold log_entries. by rewrite H. Qed.

(** Every way a call of [SaveMessage] can end. *)
Lemma SaveMessage_inv store seqNum msg d :
  let s := GormStore.sessionID store in
  let row := mkGormMessages s seqNum (string_of_list_byte msg) in
  let gate := count_or_zero (fst (Gorm.Count_fix_test_open d)) in
  match GormStore.SaveMessage store seqNum msg d with
  | (None, d') =>
      gate <= 1 /\
      sessions_tbl d' = sessions_tbl d /\ fix_test_tbl d' = fix_test_tbl d /\
      ((exists rows, messages_tbl d = Some rows /\ log_entries s seqNum d = [] /\
                     messages_tbl d' = Some (rows ++ [row]))
       \/ (messages_tbl d' = messages_tbl d /\ length (log_entries s seqNum d) = 1%nat))
  | (Some err, d') =>
      same_tables d d' /\ (err = ErrTest <-> 1 < gate)
  end.
Proof.
  intros s row gate. unfold GormStore.SaveMessage. fold s. fold row.
  destruct (Gorm.Count_fix_test_open d) as [r0 d0] eqn:Hc0.
  apply Count_fix_test_open_inv in Hc0 as Ht0. subst gate. simpl.
  destruct (Z.ltb_spec 1 (count_or_zero r0)) as [Hgt|Hle].
  - split; [exact Ht0|]. split; [done|reflexivity].
  - destruct (Gorm.Insert_message row d0) as [r1 d1] eqn:Hins.
    apply Insert_message_inv in Hins as (Hs1 & Hf1 & Hr1 & _).
    destruct Ht0 as (T1 & T2 & T3).
    destruct r1 as [u|e]; simpl.
    + destruct Hr1 as (rows & Hm0 & Hex & Hm1).
      split; [exact Hle|]. split; [congruence|]. split; [congruence|].
      left. exists rows. split; [congruence|]. split; [|exact Hm1].
      unfold log_entries. rewrite <- T2, Hm0.
      destruct (List.filter _ rows) as [|x l] eqn:Hfl; [done|].
      assert (In x (List.filter (Gorm.same_key s seqNum) rows)) as Hin
        by (rewrite Hfl; by left).
      apply filter_In in Hin as (Hin & Hx).
      assert (existsb (Gorm.same_key s seqNum) rows = true) as Hex'
        by (apply existsb_exists; eauto).
      simpl in Hex. congruence.
    + destruct Hr1 as (Hm1 & Hne).
      destruct (Gorm.Count_messages s seqNum d1) as [r2 d2] eqn:Hc2.
      apply Count_messages_inv in Hc2 as ((U1 & U2 & U3) & Hk). simpl.
      destruct (Z.eqb_spec (count_or_zero r2) 1) as [Hone|Hnot].
      * split; [exact Hle|]. split; [congruence|]. split; [congruence|].
        right. split; [congruence|].
        destruct r2 as [k|e2]; simpl in Hone; [|discriminate].
        specialize (Hk k eq_refl).
        rewrite (log_entries_same_tables s seqNum d d1) in Hk by congruence. lia.
      * split; [repeat split; congruence|]. split; [done|lia].
Qed.

Lemma same_key_own s n text : Gorm.same_key s n (mkGormMessages s n text) = true.
Proof.
  unfold Gorm.same_key, Gorm.msg_of_session. simpl.
  by rewrite bool_decide_eq_true_2, Z.eqb_refl.
Qed.

Lemma same_key_other s n s' n' text :
  s' <> s \/ n' <> n -> Gorm.same_key s' n' (mkGormMessages s n text) = false.
Proof.
  unfold Gorm.same_key, Gorm.msg_of_session. simpl. intros [Hs|Hn].
  - by rewrite bool_decide_eq_false_2 by congruence.
  - apply andb_false_iff. right. apply Z.eqb_neq. congruence.
Qed.

Lemma filter_point_range s n rows :
  List.filter (fun r => Gorm.msg_of_session s r && Gorm.in_range n n r) rows
  = List.filter (Gorm.same_key s n) rows.
Proof.
  apply List.filter_ext. intros r. unfold Gorm.same_key, Gorm.in_range.
  f_equal. destruct (Z.eqb_spec (msgseqnum r) n) as [->|Hne].
  - by rewrite Z.leb_refl.
  - apply andb_false_iff.
    destruct (Z.leb_spec n (msgseqnum r)); [right; apply Z.leb_gt; lia|by left].
Qed.

(** Reading the one sequence number [n] on a connection without faults. *)
Lemma GetMessages_point store n d rows :
  faults d = [] -> messages_tbl d = Some rows ->
  GormStore.GetMessages store n n d
  = (Ok (List.map payload
           (merge_sort Gorm.seq_le (log_entries (GormStore.sessionID store) n d))), d).
Proof.
  intros Hf Hm. unfold GormStore.GetMessages, Gorm.Raw_select_messages.
  rewrite stmt_no_fault by done. rewrite Hm. simpl.
  rewrite scan_rows_all_ok. simpl.
  unfold Gorm.select_range, log_entries. by rewrite Hm, filter_point_range.
Qed.

(** X6. After [SaveMessage] has returned [nil], the log holds exactly one
    entry under the session and sequence number: the bytes just passed when
    there was none before, and the entry that was there, unchanged, when
    there was one. *)
Theorem SaveMessage_stores_one_entry
  (store : GormStore.gromStore) (seqNum : Z) (msg : list Byte.byte) (d d' : DB) :
  let s := GormStore.sessionID store in
  GormStore.SaveMessage store seqNum msg d = (None, d') ->
  length (log_entries s seqNum d') = 1%nat /\
  (log_entries s seqNum d = [] -> List.map payload (log_entries s seqNum d') = [msg]) /\
  (log_entries s seqNum d <> [] -> log_entries s seqNum d' = log_entries s seqNum d).
Proof.
  intros s Hsave. pose proof (SaveMessage_inv store seqNum msg d) as Hinv.
  rewrite Hsave in Hinv. simpl in Hinv. fold s in Hinv.
  destruct Hinv as (_ & _ & _ & [(rows & Hm & Hnil & Hm')|(Hm' & Hone)]).
  - assert (log_entries s seqNum d'
            = [mkGormMessages s seqNum (string_of_list_byte msg)]) as Hlog.
    { unfold log_entries in *. rewrite Hm'. rewrite Hm in Hnil.
      by rewrite List.filter_app, Hnil; simpl; rewrite same_key_own. }
    rewrite Hlog. split; [done|]. split; [|by rewrite Hnil].
    intros _. simpl. unfold payload. simpl.
    by rewrite list_byte_of_string_of_list_byte.
  - rewrite (log_entries_same_tables s seqNum d d' Hm').
    split; [exact Hone|]. split; [|done].
    intros Hnil. rewrite Hnil in Hone. discriminate.
Qed.

(** Saving sequence number [3] over [db_logged], which has no such entry. *)
Lemma SaveMessage_stores_one_entry_witness :
  length (log_entries sid0 3
            (set_messages
               (Some [mkGormMessages sid0 2 "35=0|34=2";
                      mkGormMessages sid1 1 "35=A|34=1";
                      mkGormMessages sid0 1 "35=A|34=1";
                      mkGormMessages sid0 3 "35=D|34=3"]) db_logged)) = 1%nat.
Proof.
  apply (SaveMessage_stores_one_entry store_fresh 3
           (list_byte_of_string "35=D|34=3") db_logged).
  by vm_compute.
Defined.

(** X7. Round trip.  On a connection without faults, with the test gate
    open and the messages table in place, saving bytes under a sequence
    number that has no entry returns [nil], and reading that sequence number
    back returns exactly those bytes. *)
Theorem SaveMessage_GetMessages_round_trip
  (store : GormStore.gromStore) (seqNum : Z) (msg : list Byte.byte) (d : DB) :
  let s := GormStore.sessionID store in
  faults d = [] ->
  count_or_zero (fst (Gorm.Count_fix_test_open d)) <= 1 ->
  is_Some (messages_tbl d) ->
  log_entries s seqNum d = [] ->
  exists d',
    GormStore.SaveMessage store seqNum msg d = (None, d') /\
    GormStore.GetMessages store seqNum seqNum d' = (Ok [msg], d').
Proof.
  intros s Hf Hgate [rows Hm] Hnil.
  set (row := mkGormMessages s seqNum (string_of_list_byte msg)).
  exists (set_messages (Some (rows ++ [row])) d).
  assert (GormStore.SaveMessage store seqNum msg d
          = (None, set_messages (Some (rows ++ [row])) d)) as Hsave.
  { unfold GormStore.SaveMessage. fold s. fold row.
    destruct (Gorm.Count_fix_test_open d) as [r0 d0] eqn:Hc0.
    pose proof (Count_fix_test_open_no_fault d Hf) as Hd0.
    rewrite Hc0 in Hd0. simpl in Hd0, Hgate. subst d0.
    replace (1 <? count_or_zero r0) with false by (symmetry; apply Z.ltb_ge; lia).
    unfold Gorm.Insert_message. rewrite stmt_no_fault by done. rewrite Hm.
    unfold log_entries in Hnil. rewrite Hm in Hnil.
    simpl. by rewrite (existsb_filter_nil _ _ Hnil). }
  split; [exact Hsave|].
  rewrite (GetMessages_point store seqNum _ (rows ++ [row])) by done. fold s.
  unfold log_entries in *. simpl. rewrite Hm in Hnil.
  rewrite List.filter_app, Hnil. simpl. subst row. rewrite same_key_own. simpl.
  unfold payload. simpl. by rewrite list_byte_of_string_of_list_byte.
Qed.

(** A heartbeat saved under [3] over [db_logged] and read back. *)
Lemma SaveMessage_GetMessages_round_trip_witness :
  exists d',
    GormStore.SaveMessage store_fresh 3 (list_byte_of_string "35=0|34=3") db_logged
    = (None, d') /\
    GormStore.GetMessages store_fresh 3 3 d'
    = (Ok [list_byte_of_string "35=0|34=3"], d').
Proof.
  apply (SaveMessage_GetMessages_round_trip store_fresh 3
           (list_byte_of_string "35=0|34=3") db_logged).
  - reflexivity.
  - vm_compute. discriminate.
  - by eexists.
  - reflexivity.
Defined.

(** X8. The first save wins.  On a connection without faults and with the
    test gate open, saving under a sequence number that already has its one
    entry returns [nil] whatever bytes are passed, changes nothing in the
    database, and a read of that sequence number still returns the bytes of
    the entry stored first. *)
Theorem SaveMessage_resend_keeps_first
  (store : GormStore.gromStore) (seqNum : Z) (msg : list Byte.byte) (d : DB)
  (r : GormMessages) :
  let s := GormStore.sessionID store in
  faults d = [] ->
  count_or_zero (fst (Gorm.Count_fix_test_open d)) <= 1 ->
  log_entries s seqNum d = [r] ->
  GormStore.SaveMessage store seqNum msg d = (None, d) /\
  GormStore.GetMessages store seqNum seqNum d = (Ok [payload r], d).
Proof.
  intros s Hf Hgate Hone.
  assert (exists rows, messages_tbl d = Some rows) as [rows Hm].
  { unfold log_entries in Hone. destruct (messages_tbl d); [by eexists|discriminate]. }
  split.
  - unfold GormStore.SaveMessage. fold s.
    destruct (Gorm.Count_fix_test_open d) as [r0 d0] eqn:Hc0.
    pose proof (Count_fix_test_open_no_fault d Hf) as Hd0.
    rewrite Hc0 in Hd0. simpl in Hd0, Hgate. subst d0.
    replace (1 <? count_or_zero r0) with false by (symmetry; apply Z.ltb_ge; lia).
    unfold Gorm.Insert_message. rewrite stmt_no_fault by done. rewrite Hm. simpl.
    assert (existsb (Gorm.same_key s seqNum) rows = true) as ->.
    { apply existsb_exists. exists r. apply filter_In.
      unfold log_entries in Hone. rewrite Hm in Hone. rewrite Hone. by left. }
    simpl. rewrite (Count_messages_no_fault s seqNum d rows) by done.
    by rewrite Hone.
  - rewrite (GetMessages_point store seqNum d rows) by done. fold s.
    by rewrite Hone.
Qed.

(** Logon [1] of [db_logged] saved again with other bytes. *)
Lemma SaveMessage_resend_keeps_first_witness :
  GormStore.SaveMessage store_fresh 1 (list_byte_of_string "35=5|34=1") db_logged
  = (None, db_logged) /\
  GormStore.GetMessages store_fresh 1 1 db_logged
  = (Ok [payload (mkGormMessages sid0 1 "35=A|34=1")], db_logged).
Proof.
  apply (SaveMessage_resend_keeps_first store_fresh 1
           (list_byte_of_string "35=5|34=1") db_logged
           (mkGormMessages sid0 1 "35=A|34=1")).
  - reflexivity.
  - vm_compute. discriminate.
  - reflexivity.
Defined.

Lemma fix_test_count_reading d :
  let gate := count_or_zero (fst (Gorm.Count_fix_test_open d)) in
  (fix_test_tbl d = None -> gate = 0) /\
  (forall fs, faults d = true :: fs -> gate = 0) /\
  (forall rows fs,
     fix_test_tbl d = Some rows -> faults d = [] \/ faults d = false :: fs ->
     gate = Z.of_nat (length (List.filter (fun o => o =? 1) rows))).
Proof.
  destruct d as [st mt ft fs0]. unfold Gorm.Count_fix_test_open, Gorm.stmt. simpl.
  split; [intros ->; by destruct fs0 as [|[] ?]|].
  split; [by intros fs ->|].
  by intros rows fs -> [-> | ->].
Qed.

(** X9. The test gate.  [SaveMessage] returns the ["test error"] exactly when
    its count of the open rows of [fix_test] reads more than one, and it then
    changes no table.  The count reads zero, and the gate is open, when the
    table is missing or the count fails; otherwise it is the number of rows
    whose [open] is [1]. *)
Theorem SaveMessage_test_gate
  (store : GormStore.gromStore) (seqNum : Z) (msg : list Byte.byte) (d : DB) :
  let gate := count_or_zero (fst (Gorm.Count_fix_test_open d)) in
  (fst (GormStore.SaveMessage store seqNum msg d) = Some ErrTest <-> 1 < gate) /\
  (1 < gate -> same_tables d (snd (GormStore.SaveMessage store seqNum msg d))) /\
  (fix_test_tbl d = None -> gate = 0) /\
  (forall fs, faults d = true :: fs -> gate = 0) /\
  (forall rows fs,
     fix_test_tbl d = Some rows -> faults d = [] \/ faults d = false :: fs ->
     gate = Z.of_nat (length (List.filter (fun o => o =? 1) rows))).
Proof.
  intros gate. pose proof (SaveMessage_inv store seqNum msg d) as Hinv.
  pose proof (fix_test_count_reading d) as Hread.
  fold gate in Hinv, Hread.
  destruct (GormStore.SaveMessage store seqNum msg d) as [[err|] d']; simpl in *.
  - destruct Hinv as (Ht & Hiff). split; [|split; [done|exact Hread]].
    split; [intros H; inversion H; by apply Hiff|intros H; f_equal; by apply Hiff].
  - destruct Hinv as (Hle & _). split; [|split; [lia|exact Hread]].
    split; [discriminate|lia].
Qed.

(** Two open rows close the gate; one open row leaves it open. *)
Example SaveMessage_gate_closed :
  GormStore.SaveMessage store_fresh 3 (list_byte_of_string "35=0|34=3")
    (mkDB (sessions_tbl db_logged) (messages_tbl db_logged) (Some [1; 0; 1]) [])
  = (Some ErrTest,
     mkDB (sessions_tbl db_logged) (messages_tbl db_logged) (Some [1; 0; 1]) []) /\
  fst (GormStore.SaveMessage store_fresh 3 (list_byte_of_string "35=0|34=3")
         (mkDB (sessions_tbl db_logged) (messages_tbl db_logged) (Some [1; 0]) []))
  = None.
Proof. split; by vm_compute. Qed.

(** X10. [SaveMessage] touches one key of the log.  Whatever it returns,
    the session records are as before, and so are the entries stored under
    every other session or sequence number. *)
Theorem SaveMessage_touches_one_key
  (store : GormStore.gromStore) (seqNum : Z) (msg : list Byte.byte) (d : DB) :
  let s := GormStore.sessionID store in
  let d' := snd (GormStore.SaveMessage store seqNum msg d) in
  sessions_tbl d' = sessions_tbl d /\
  (forall s' n', s' <> s \/ n' <> seqNum ->
     log_entries s' n' d' = log_entries s' n' d) /\
  (forall s', s' <> s -> message_rows s' d' = message_rows s' d).
Proof.
  intros s d'. pose proof (SaveMessage_inv store seqNum msg d) as Hinv.
  subst d'. fold s in Hinv.
  destruct (GormStore.SaveMessage store seqNum msg d) as [[err|] d']; simpl in *.
  - destruct Hinv as ((T1 & T2 & T3) & _). split; [done|].
    split; intros; [unfold log_entries|unfold message_rows]; by rewrite T2.
  - destruct Hinv as (_ & T1 & _ & [(rows & Hm & _ & Hm')|(Hm' & _)]).
    + split; [done|]. split.
      * intros s' n' Hne. unfold log_entries. rewrite Hm, Hm', List.filter_app.
        simpl. rewrite same_key_other by done. by rewrite app_nil_r.
      * intros s' Hne. unfold message_rows. rewrite Hm, Hm', List.filter_app.
        simpl. unfold Gorm.msg_of_session at 2. simpl.
        rewrite bool_decide_eq_false_2 by congruence. by rewrite app_nil_r.
    + split; [done|].
      split; intros; [unfold log_entries|unfold message_rows]; by rewrite Hm'.
Qed.

(** ** The cache and the durable record *)

Lemma Reset_ok_inv store now d store' d' :
  GormStore.Reset store now d = (None, store', d') ->
  store' = GormStore.with_cache (MemoryStore.mk now 1 1) store /\
  session_rows (GormStore.sessionID store) d'
  = List.map (GormStore.reset_columns (MemoryStore.mk now 1 1))
      (session_rows (GormStore.sessionID store) d).
Proof.
  unfold GormStore.Reset.
  destruct (Gorm.Delete_messages _ d) as [r1 d1] eqn:Hdel.
  apply Delete_messages_inv in Hdel.
  destruct r1 as [u|e1]; [|discriminate].
  destruct Hdel as (Hsess & _). simpl.
  destruct (Gorm.Update_sessions _ _ d1) as [r2 d2] eqn:Hupd.
  destruct r2 as [[]|e2]; simpl; [|discriminate].
  intros H; inversion H; subst. split; [done|].
  rewrite (Update_sessions_rows (GormStore.sessionID store)
             (GormStore.reset_columns (MemoryStore.mk now 1 1)) d1 d'
             (fun x => eq_refl) Hupd).
  unfold session_rows. by rewrite Hsess.
Qed.

Lemma Refresh_ok_inv store now d r rest store' d' :
  session_rows (GormStore.sessionID store) d = r :: rest ->
  GormStore.Refresh store now d = (None, store', d') ->
  store' = GormStore.with_cache
             (MemoryStore.mk (CreationTime r) (OutgoingSeqNum r) (IncomingSeqNum r))
             store /\
  same_tables d d'.
Proof.
  intros Hrows. unfold GormStore.Refresh. simpl. intros Hp.
  apply populateCache_inv in Hp as (Hm & Hft & Hp). simpl in Hp.
  rewrite Hrows in Hp. destruct Hp as (Hs & Hok & _).
  split; [by apply Hok|]. by repeat split.
Qed.

(** One call that returns [nil] keeps the record and the cache together. *)
Lemma do_call_keeps_record c store d store' d' :
  durable_record store d ->
  do_call c store d = (None, store', d') ->
  GormStore.sessionID store' = GormStore.sessionID store /\
  GormStore.db store' = GormStore.db store /\
  durable_record store' d'.
Proof.
  intros (r & rest & Hrows & Hct & Hin & Hout).
  destruct c as [n|n| | |now|now|seqNum msg|b e]; simpl.
  - pose proof (SetNextSenderMsgSeqNum_inv store n d) as Hset.
    destruct (GormStore.SetNextSenderMsgSeqNum store n d) as [[[err|] st] d1];
      [discriminate|].
    intros H; inversion H; subst. destruct Hset as (_ & -> & Hrows').
    split; [done|]. split; [done|].
    exists (GormStore.set_outgoing n r), (List.map (GormStore.set_outgoing n) rest).
    simpl. rewrite Hrows', Hrows. by repeat split.
  - pose proof (SetNextTargetMsgSeqNum_inv store n d) as Hset.
    destruct (GormStore.SetNextTargetMsgSeqNum store n d) as [[[err|] st] d1];
      [discriminate|].
    intros H; inversion H; subst. destruct Hset as (_ & -> & Hrows').
    split; [done|]. split; [done|].
    exists (GormStore.set_incoming n r), (List.map (GormStore.set_incoming n) rest).
    simpl. rewrite Hrows', Hrows. by repeat split.
  - intros Hincr. apply IncrNextSenderMsgSeqNum_ok in Hincr as (-> & Hrows').
    split; [done|]. split; [done|].
    eexists _, _. simpl. rewrite Hrows', Hrows. simpl. by repeat split.
  - intros Hincr. pose proof (IncrNextTargetMsgSeqNum_outcomes store d) as Hout'.
    rewrite Hincr in Hout'. simpl in Hout'. destruct Hout' as (_ & -> & Hrows').
    split; [done|]. split; [done|].
    eexists _, _. simpl. rewrite Hrows', Hrows. simpl. by repeat split.
  - intros Hreset. apply Reset_ok_inv in Hreset as (-> & Hrows').
    split; [done|]. split; [done|].
    eexists _, _. simpl. rewrite Hrows', Hrows. simpl. by repeat split.
  - intros Hrefresh.
    apply (Refresh_ok_inv _ _ _ r rest) in Hrefresh as (-> & Ht); [|done].
    split; [done|]. split; [done|].
    exists r, rest. simpl. rewrite (session_rows_same_tables _ d d') by done.
    by repeat split.
  - pose proof (SaveMessage_inv store seqNum msg d) as Hinv.
    destruct (GormStore.SaveMessage store seqNum msg d) as [[err|] d1];
      [discriminate|].
    intros H; inversion H; subst. destruct Hinv as (_ & Hs & _).
    split; [done|]. split; [done|].
    exists r, rest. unfold session_rows in *. rewrite Hs. by repeat split.
  - pose proof (GetMessages_inv store b e d) as Hinv.
    destruct (GormStore.GetMessages store b e d) as [[msgs|err] d1];
      [|discriminate].
    intros H; inversion H; subst. destruct Hinv as (Ht & _).
    split; [done|]. split; [done|].
    exists r, rest. rewrite (session_rows_same_tables _ d d') by done.
    by repeat split.
Qed.

Lemma do_calls_keep_record cs :
  forall store d store' d',
    durable_record store d ->
    do_calls cs store d = (None, store', d') ->
    GormStore.sessionID store' = GormStore.sessionID store /\
    GormStore.db store' = GormStore.db store /\
    durable_record store' d'.
Proof.
  induction cs as [|c cs IH]; intros store d store' d' Hrec Hrun; simpl in Hrun.
  - by inversion Hrun; subst.
  - destruct (do_call c store d) as [[[err|] st1] d1] eqn:Hc; [discriminate|].
    destruct (do_call_keeps_record _ _ _ _ _ Hrec Hc) as (Hid & Hdb & Hrec1).
    destruct (IH _ _ _ _ Hrec1 Hrun) as (Hid' & Hdb' & Hrec').
    split; [congruence|]. split; [congruence|exact Hrec'].
Qed.

Lemma Create_ok_record f sid now d store d' :
  GormStore.Create f sid now d = (Ok store, d') ->
  GormStore.sessionID store = sid /\ GormStore.db store = true /\
  durable_record store d'.
Proof.
  intros Hcreate. apply Create_ok_inv in Hcreate as (d1 & _ & Hp).
  pose proof Hp as Hinv.
  apply populateCache_inv in Hinv as (_ & _ & Hinv). simpl in Hinv.
  destruct (session_rows sid d1) as [|r rest] eqn:Hrows.
  - destruct Hinv as (-> & Hok & _). destruct (Hok eq_refl) as (_ & Hown).
    split; [done|]. split; [done|].
    eexists _, []. simpl. split; [exact Hown|]. by repeat split.
  - destruct Hinv as (Hs & Hok & _). rewrite (Hok eq_refl).
    split; [done|]. split; [done|].
    exists r, rest. simpl. unfold session_rows in *. rewrite Hs. by repeat split.
Qed.

(** X11. The cache and the record stay together.  Take the store [Create]
    returns and let the session make any calls on it, setters, increments,
    resets, refreshes, saves and reads, each returning [nil].  The store then
    still has a durable record, and the record [First] reads carries exactly
    the cache's creation time and its two next sequence numbers. *)
Theorem successful_calls_keep_record
  (f : GormStore.gormStoreFactory) (sid : SessionID) (now : Z) (d0 : DB)
  (store0 : GormStore.gromStore) (d1 : DB) (cs : list call)
  (store : GormStore.gromStore) (d : DB) :
  GormStore.Create f sid now d0 = (Ok store0, d1) ->
  do_calls cs store0 d1 = (None, store, d) ->
  GormStore.sessionID store = sid /\ durable_record store d.
Proof.
  intros Hcreate Hrun.
  apply Create_ok_record in Hcreate as (Hsid & _ & Hrec).
  destruct (do_calls_keep_record _ _ _ _ _ Hrec Hrun) as (Hid & _ & Hrec').
  split; [congruence|exact Hrec'].
Qed.

(** A session that logs on, saves, sets, resets and increments. *)
Lemma successful_calls_keep_record_witness :
  GormStore.sessionID (GormStore.mkStore sid0 (MemoryStore.mk 200 1 2) true) = sid0 /\
  durable_record (GormStore.mkStore sid0 (MemoryStore.mk 200 1 2) true)
    (mkDB (Some [mkGormSessions sid0 200 2 1]) (Some []) None []).
Proof.
  apply (successful_calls_keep_record
           (GormStore.NewGormStoreFactory static_settings) sid0 100 db_blank
           store_fresh db_fresh
           [CallIncrNextSender;
            CallSaveMessage 1 (list_byte_of_string "35=A|34=1");
            CallSetNextTarget 5; CallGetMessages 1 1; CallReset 200;
            CallIncrNextTarget]).
  - by vm_compute.
  - by vm_compute.
Defined.

Lemma Create_again_full f sid now0 d0 store0 d1 now d r rest :
  GormStore.Create f sid now0 d0 = (Ok store0, d1) ->
  session_rows sid d = r :: rest ->
  match GormStore.Create f sid now d with
  | (Ok store', _) =>
      store' = GormStore.mkStore sid
                 (MemoryStore.mk (CreationTime r) (OutgoingSeqNum r) (IncomingSeqNum r))
                 true
  | (Err _, _) => faults d <> []
  end.
Proof.
  unfold GormStore.Create.
  destruct (if HasSetting _ _ then _ else _) as [dyn|e]; [|discriminate].
  destruct (negb _ && negb dyn); [discriminate|].
  intros _ Hrows.
  destruct (GormStore.initTables _ d) as [r2 d2] eqn:Hi.
  apply initTables_post in Hi as (Hrows2 & _ & _ & _ & Hnf2).
  destruct r2 as [e|]; [intros Hf; by destruct (Hnf2 Hf)|].
  simpl. unfold GormStore.with_cache. simpl.
  destruct (GormStore.populateCache _ d2) as [[r3 store'] d3] eqn:Hp.
  apply populateCache_inv in Hp as (_ & _ & Hp). simpl in Hp.
  rewrite Hrows2, Hrows in Hp. destruct Hp as (_ & Hok & Hnf3).
  destruct r3 as [e|].
  - intros Hf. destruct (Hnf2 Hf) as (_ & Hf2). by destruct (Hnf3 Hf2).
  - by apply Hok.
Qed.

(** X12. Restart.  After any calls that all returned [nil] on the store
    [Create] returned, constructing the store again over the database they
    left behind gives back the very same store, creation time and both
    sequence numbers included, whatever the clock reads; the construction can
    fail only on a connection with faults to come. *)
Theorem restart_restores_store
  (f : GormStore.gormStoreFactory) (sid : SessionID) (now : Z) (d0 : DB)
  (store0 : GormStore.gromStore) (d1 : DB) (cs : list call)
  (store : GormStore.gromStore) (d : DB) (now' : Z) :
  GormStore.Create f sid now d0 = (Ok store0, d1) ->
  do_calls cs store0 d1 = (None, store, d) ->
  match GormStore.Create f sid now' d with
  | (Ok store', _) => store' = store
  | (Err _, _) => faults d <> []
  end.
Proof.
  intros Hcreate Hrun.
  pose proof (Create_ok_record _ _ _ _ _ _ Hcreate) as (Hsid & Hdb & Hrec).
  destruct (do_calls_keep_record _ _ _ _ _ Hrec Hrun)
    as (Hid & Hdb' & (r & rest & Hrows & Hct & Hin & Hout)).
  rewrite Hid, Hsid in Hrows.
  pose proof (Create_again_full f sid now d0 store0 d1 now' d r rest Hcreate Hrows) as H.
  destruct (GormStore.Create f sid now' d) as [[store'|e] d']; [|exact H].
  rewrite H, Hct, Hin, Hout.
  destruct store as [sid' [ct ns nt] db'].
  unfold GormStore.CreationTime, GormStore.NextSenderMsgSeqNum,
    GormStore.NextTargetMsgSeqNum. simpl in *. congruence.
Qed.

(** The session of the previous run, constructed again at another time. *)
Lemma restart_restores_store_witness :
  match GormStore.Create (GormStore.NewGormStoreFactory static_settings) sid0 999
          (mkDB (Some [mkGormSessions sid0 200 2 1]) (Some []) None []) with
  | (Ok store', _) => store' = GormStore.mkStore sid0 (MemoryStore.mk 200 1 2) true
  | (Err _, _) =>
      faults (mkDB (Some [mkGormSessions sid0 200 2 1]) (Some []) None []) <> []
  end.
Proof.
  apply (restart_restores_store
           (GormStore.NewGormStoreFactory static_settings) sid0 100 db_blank
           store_fresh db_fresh
           [CallIncrNextSender;
            CallSaveMessage 1 (list_byte_of_string "35=A|34=1");
            CallSetNextTarget 5; CallGetMessages 1 1; CallReset 200;
            CallIncrNextTarget] _ _ 999).
  - by vm_compute.
  - by vm_compute.
Defined.

Lemma Incr_err_inv store d :
  (forall err store1 d1,
     GormStore.IncrNextSenderMsgSeqNum store d = (Some err, store1, d1) ->
     same_tables d d1 /\
     GormStore.sessionID store1 = GormStore.sessionID store /\
     GormStore.db store1 = GormStore.db store) /\
  (forall err store1 d1,
     GormStore.IncrNextTargetMsgSeqNum store d = (Some err, store1, d1) ->
     same_tables d d1 /\
     GormStore.sessionID store1 = GormStore.sessionID store /\
     GormStore.db store1 = GormStore.db store).
Proof.
  split; intros err store1 d1.
  - unfold GormStore.IncrNextSenderMsgSeqNum.
    destruct (MemoryStore.IncrNextSenderMsgSeqNum _) as [[e|] c].
    + intros H; inversion H; subst. split; [apply same_tables_refl|done].
    + match goal with
      | |- context [GormStore.SetNextSenderMsgSeqNum ?st ?k d] =>
          pose proof (SetNextSenderMsgSeqNum_inv st k d) as Hset;
          destruct (GormStore.SetNextSenderMsgSeqNum st k d) as [[[e|] st'] d']
      end; simpl in Hset; [|discriminate].
      intros H; inversion H; subst. by destruct Hset as (_ & -> & Ht).
  - unfold GormStore.IncrNextTargetMsgSeqNum.
    destruct (MemoryStore.IncrNextTargetMsgSeqNum _) as [[e|] c].
    + intros H; inversion H; subst. split; [apply same_tables_refl|done].
    + match goal with
      | |- context [GormStore.SetNextTargetMsgSeqNum ?st ?k d] =>
          pose proof (SetNextTargetMsgSeqNum_inv st k d) as Hset;
          destruct (GormStore.SetNextTargetMsgSeqNum st k d) as [[[e|] st'] d']
      end; simpl in Hset; [|discriminate].
      intros H; inversion H; subst. by destruct Hset as (_ & -> & Ht).
Qed.

(** X13. [Refresh] brings a cache back to the record.  When the cache and
    the record agree and an increment, of either direction, then returns an
    error, a [Refresh] that returns [nil] restores the store exactly as it was
    before the increment, and the tables are as they were. *)
Theorem Refresh_undoes_failed_incr
  (store : GormStore.gromStore) (d : DB) (err : error)
  (store1 : GormStore.gromStore) (d1 : DB) (now : Z)
  (store2 : GormStore.gromStore) (d2 : DB) :
  durable_record store d ->
  GormStore.IncrNextSenderMsgSeqNum store d = (Some err, store1, d1) \/
  GormStore.IncrNextTargetMsgSeqNum store d = (Some err, store1, d1) ->
  GormStore.Refresh store1 now d1 = (None, store2, d2) ->
  store2 = store /\ same_tables d d2.
Proof.
  intros (r & rest & Hrows & Hct & Hin & Hout) Hincr Hrefresh.
  assert (same_tables d d1 /\
          GormStore.sessionID store1 = GormStore.sessionID store /\
          GormStore.db store1 = GormStore.db store) as (Ht & Hid & Hdb).
  { destruct (Incr_err_inv store d) as (Hs & Htg).
    destruct Hincr as [Hincr|Hincr]; [by apply Hs in Hincr|by apply Htg in Hincr]. }
  assert (session_rows (GormStore.sessionID store1) d1 = r :: rest) as Hrows1.
  { rewrite Hid. by rewrite (session_rows_same_tables _ d d1). }
  apply (Refresh_ok_inv _ _ _ _ _ _ _ Hrows1) in Hrefresh as (-> & Ht').
  split; [|by eapply same_tables_trans].
  rewrite Hct, Hin, Hout.
  destruct store as [sid [ct ns nt] db], store1 as [sid1' c1 db1].
  unfold GormStore.CreationTime, GormStore.NextSenderMsgSeqNum,
    GormStore.NextTargetMsgSeqNum, GormStore.with_cache. simpl in *. congruence.
Qed.

(** The failed increment of [store_fresh], followed by a refresh. *)
Lemma Refresh_undoes_failed_incr_witness :
  store_fresh = store_fresh /\ same_tables (set_faults [true] db_fresh) db_fresh.
Proof.
  apply (Refresh_undoes_failed_incr store_fresh (set_faults [true] db_fresh) ErrDriver
           (GormStore.mkStore sid0 (MemoryStore.mk 100 2 1) true) db_fresh 300
           store_fresh db_fresh).
  - exists (mkGormSessions sid0 100 1 1), []. by repeat split.
  - left. by vm_compute.
  - by vm_compute.
Defined.

Lemma map_update_no_rows s (f : GormSessions -> GormSessions) rows :
  List.filter (Gorm.of_session s) rows = [] ->
  List.map (fun x => if Gorm.of_session s x then f x else x) rows = rows.
Proof.
  induction rows as [|x rows IH]; simpl; [done|].
  destruct (Gorm.of_session s x); [discriminate|].
  intros H. by rewrite IH.
Qed.

(** X14. A sequence number set while the session has no record is not
    stored.  On a connection without faults, with the sessions table in place
    but no record of the session in it, [SetNextSenderMsgSeqNum] returns
    [nil] and puts [n] in the cache while the database stays exactly as it
    was; the next [Refresh] then inserts a record at [1] and [1] and the cache
    reads [1] again. *)
Theorem SetNextSenderMsgSeqNum_without_record
  (store : GormStore.gromStore) (n : Z) (d : DB) (now : Z) :
  let s := GormStore.sessionID store in
  let store' :=
    GormStore.with_cache
      (MemoryStore.mk (GormStore.CreationTime store) n
         (GormStore.NextTargetMsgSeqNum store)) store in
  faults d = [] ->
  is_Some (sessions_tbl d) ->
  session_rows s d = [] ->
  GormStore.SetNextSenderMsgSeqNum store n d = (None, store', d) /\
  exists d',
    GormStore.Refresh store' now d
    = (None, GormStore.with_cache (MemoryStore.mk now 1 1) store, d') /\
    session_rows s d' = [mkGormSessions s now 1 1].
Proof.
  intros s store' Hf [rows Hs] Hrows. split.
  - unfold GormStore.SetNextSenderMsgSeqNum, Gorm.Update_sessions.
    rewrite stmt_no_fault by done. rewrite Hs. simpl.
    unfold session_rows in Hrows. rewrite Hs in Hrows.
    rewrite map_update_no_rows by done.
    destruct d as [st mt ft fs]. simpl in *. by subst.
  - unfold GormStore.Refresh. simpl.
    destruct (GormStore.populateCache _ d) as [[res st2] d2] eqn:Hp.
    apply populateCache_inv in Hp as (_ & _ & Hp). simpl in Hp.
    fold s in Hp. rewrite Hrows in Hp. destruct Hp as (-> & Hok & _ & Hnf).
    destruct (Hnf Hf (ex_intro _ rows Hs)) as (-> & _).
    destruct (Hok eq_refl) as (_ & Hown).
    exists d2. split; [|exact Hown].
    by destruct store.
Qed.

(** [sid1] has no record in [db_fresh]. *)
Lemma SetNextSenderMsgSeqNum_without_record_witness :
  GormStore.SetNextSenderMsgSeqNum
    (GormStore.mkStore sid1 (MemoryStore.mk 100 1 1) true) 42 db_fresh
  = (None, GormStore.mkStore sid1 (MemoryStore.mk 100 42 1) true, db_fresh) /\
  exists d',
    GormStore.Refresh (GormStore.mkStore sid1 (MemoryStore.mk 100 42 1) true) 300 db_fresh
    = (None, GormStore.mkStore sid1 (MemoryStore.mk 300 1 1) true, d') /\
    session_rows sid1 d' = [mkGormSessions sid1 300 1 1].
Proof.
  apply (SetNextSenderMsgSeqNum_without_record
           (GormStore.mkStore sid1 (MemoryStore.mk 100 1 1) true) 42 db_fresh 300).
  - reflexivity.
  - by eexists.
  - reflexivity.
Defined.

(** X15. [Reset] and [Refresh] stay within their session.  Whatever they
    return, the records and the log entries of every other session are as
    before; and [Refresh] changes no log entry at all and, when the session
    has a record, no record either. *)
Theorem Reset_Refresh_keep_other_sessions
  (store : GormStore.gromStore) (now : Z) (d : DB) :
  let s := GormStore.sessionID store in
  (forall s', s' <> s ->
     session_rows s' (snd (GormStore.Reset store now d)) = session_rows s' d /\
     message_rows s' (snd (GormStore.Reset store now d)) = message_rows s' d) /\
  (forall s', s' <> s ->
     session_rows s' (snd (GormStore.Refresh store now d)) = session_rows s' d) /\
  messages_tbl (snd (GormStore.Refresh store now d)) = messages_tbl d /\
  (session_rows s d <> [] ->
   sessions_tbl (snd (GormStore.Refresh store now d)) = sessions_tbl d).
Proof.
  intros s. split; [|split; [|split]].
  - intros s' Hne. unfold GormStore.Reset. fold s.
    destruct (Gorm.Delete_messages s d) as [r1 d1] eqn:Hdel.
    apply Delete_messages_inv in Hdel.
    destruct r1 as [u|e1]; simpl.
    + destruct Hdel as (Hsess & _ & _ & Hother).
      destruct (Gorm.Update_sessions s _ d1) as [r2 d2] eqn:Hupd.
      apply Update_sessions_frame in Hupd as (Hm & _ & Hothers & _); [|done].
      simpl. split.
      * rewrite Hothers by done. unfold session_rows. by rewrite Hsess.
      * rewrite <- (Hother s' Hne). unfold message_rows. by rewrite Hm.
    + split; [by apply session_rows_same_tables|by apply message_rows_same_tables].
  - intros s' Hne. unfold GormStore.Refresh. simpl.
    destruct (GormStore.populateCache _ d) as [[res st2] d2] eqn:Hp.
    apply populateCache_inv in Hp as (_ & _ & Hp). simpl in Hp. fold s in Hp. simpl.
    destruct (session_rows s d) as [|r rest].
    + destruct Hp as (_ & Hok & Herr & _).
      destruct res as [e|].
      * unfold session_rows. by rewrite Herr.
      * by apply Hok.
    + destruct Hp as (Hs & _). unfold session_rows. by rewrite Hs.
  - unfold GormStore.Refresh. simpl.
    destruct (GormStore.populateCache _ d) as [[res st2] d2] eqn:Hp.
    by apply populateCache_inv in Hp as (Hm & _).
  - intros Hrows. unfold GormStore.Refresh. simpl.
    destruct (GormStore.populateCache _ d) as [[res st2] d2] eqn:Hp.
    apply populateCache_inv in Hp as (_ & _ & Hp). simpl in Hp. fold s in Hp. simpl.
    destruct (session_rows s d) as [|r rest]; [done|]. by destruct Hp as (Hs & _).
Qed.

(** The reset of [sid0] over [db_logged] leaves the entry of [sid1]. *)
Example Reset_keeps_sid1 :
  message_rows sid1 (snd (GormStore.Reset store_fresh 200 db_logged))
  = [mkGormMessages sid1 1 "35=A|34=1"].
Proof. by vm_compute. Qed.

(** ** The registry and the gorm store *)

(** X16. Every handle is found under its own identity.  A registry in which
    each handle is stored under its own [sessionID] stays so through
    [registerSession] and [UnregisterSession], and through [SendToTarget] and
    [Send] when queueing a message does not change the identity of the
    handle; the empty registry is such a registry. *)
Theorem registry_keyed_by_identity {S M : Type} `{MessageStore S} `{Messagable M}
  (queueForSend : Registry.session S -> Message -> option error * Registry.session S)
  (sessions : gmap SessionID (Registry.session S)) :
  keyed_by_identity (∅ : gmap SessionID (Registry.session S)) /\
  (keyed_by_identity sessions ->
   (forall s, keyed_by_identity (snd (Registry.registerSession s sessions))) /\
   (forall sessionID,
      keyed_by_identity (snd (Registry.UnregisterSession sessionID sessions))) /\
   ((forall s msg, Registry.sessionID (snd (queueForSend s msg)) = Registry.sessionID s) ->
    forall (m : M),
      (forall sessionID,
         keyed_by_identity
           (snd (Registry.SendToTarget queueForSend m sessionID sessions))) /\
      keyed_by_identity (snd (Registry.Send queueForSend m sessions)))).
Proof.
  split; [intros k s; by rewrite lookup_empty|].
  intros Hkeyed.
  assert (forall (k : SessionID) (s' : Registry.session S),
            Registry.sessionID s' = k -> keyed_by_identity (<[k := s']> sessions))
    as Hins.
  { intros k s' Hk k' s''. rewrite lookup_insert. case_decide; [|by apply Hkeyed].
    intros Heq; inversion Heq; by subst. }
  assert (forall (qm : Message) sid,
            (forall s msg, Registry.sessionID (snd (queueForSend s msg))
                           = Registry.sessionID s) ->
            keyed_by_identity
              (snd (Registry.SendToTarget queueForSend qm sid sessions))) as Hsend.
  { intros qm sid Hq. unfold Registry.SendToTarget, Registry.lookupSession.
    destruct (sessions !! sid) as [s|] eqn:Hs; [|exact Hkeyed].
    specialize (Hq s (ToMessage qm)).
    destruct (queueForSend s (ToMessage qm)) as [e s']. simpl in *.
    apply Hins. rewrite Hq. by apply Hkeyed. }
  split; [|split].
  - intros s. unfold Registry.registerSession.
    destruct (sessions !! Registry.sessionID s); [exact Hkeyed|]. simpl. by apply Hins.
  - intros sid. unfold Registry.UnregisterSession.
    destruct (sessions !! sid) as [s|] eqn:Hs; [|exact Hkeyed].
    destruct (Close (Registry.store s)) as [[e|] st]; simpl.
    + apply Hins. simpl. by apply Hkeyed.
    + intros k s'. rewrite lookup_delete. case_decide; [done|by apply Hkeyed].
  - intros Hq m. split.
    + intros sid. unfold Registry.SendToTarget, Registry.lookupSession.
      destruct (sessions !! sid) as [s|] eqn:Hs; [|exact Hkeyed].
      specialize (Hq s (ToMessage m)).
      destruct (queueForSend s (ToMessage m)) as [e s']. simpl in *.
      apply Hins. rewrite Hq. by apply Hkeyed.
    + unfold Registry.Send.
      destruct (GetField _ tagBeginString "") as [[e|] b]; [exact Hkeyed|].
      destruct (GetField _ tagTargetCompID "") as [[e|] t]; [exact Hkeyed|].
      destruct (GetField _ tagSenderCompID "") as [[e|] sc]; [exact Hkeyed|].
      destruct (GetField _ tagSenderSubID "") as [e1 ss].
      destruct (GetField _ tagTargetSubID "") as [e2 ts].
      destruct (_ && _); by apply Hsend.
Qed.

(** X17. Register, then unregister.  Registering a handle whose identity is
    free succeeds and makes [lookupSession] return that handle, other
    identities resolving as before; when the store of the handle closes
    without error, unregistering it then succeeds and gives back the registry
    there was before the registration. *)
Theorem register_then_unregister {S : Type} `{MessageStore S}
  (s : Registry.session S) (sessions : gmap SessionID (Registry.session S)) (st : S) :
  Registry.lookupSession (Registry.sessionID s) sessions = None ->
  Close (Registry.store s) = (None, st) ->
  exists registered,
    Registry.registerSession s sessions = (None, registered) /\
    Registry.lookupSession (Registry.sessionID s) registered = Some s /\
    (forall other, other <> Registry.sessionID s ->
       Registry.lookupSession other registered = Registry.lookupSession other sessions) /\
    Registry.UnregisterSession (Registry.sessionID s) registered = (None, sessions).
Proof.
  unfold Registry.lookupSession, Registry.registerSession, Registry.UnregisterSession.
  intros Hfree Hclose. rewrite Hfree.
  exists (<[Registry.sessionID s := s]> sessions).
  split; [reflexivity|]. split; [apply lookup_insert_eq|].
  split; [intros other Hne; by apply lookup_insert_ne|].
  rewrite lookup_insert_eq, Hclose. by rewrite delete_insert_id.
Qed.

(** The gorm-backed session of [sid0], registered in an empty registry. *)
Lemma register_then_unregister_witness :
  exists registered,
    Registry.registerSession session_gorm ∅ = (None, registered) /\
    Registry.lookupSession (Registry.sessionID session_gorm) registered
    = Some session_gorm /\
    (forall other, other <> Registry.sessionID session_gorm ->
       Registry.lookupSession other registered = Registry.lookupSession other ∅) /\
    Registry.UnregisterSession (Registry.sessionID session_gorm) registered = (None, ∅).
Proof.
  apply (register_then_unregister session_gorm ∅
           (GormStore.mkStore sid0 (MemoryStore.mk 100 1 1) false)).
  - apply lookup_empty.
  - reflexivity.
Defined.

(** X18. Closing a gorm store.  [Close] always returns [nil], drops the
    handle and keeps the identity and the cache of the store; closing again
    changes nothing.  So unregistering a registered session that runs on a
    gorm store always succeeds and removes exactly that session. *)
Theorem gorm_Close_never_fails
  (store : GormStore.gromStore)
  (sessions : gmap SessionID (Registry.session GormStore.gromStore)) :
  fst (GormStore.Close store) = None /\
  GormStore.db (snd (GormStore.Close store)) = false /\
  GormStore.sessionID (snd (GormStore.Close store)) = GormStore.sessionID store /\
  GormStore.cache (snd (GormStore.Close store)) = GormStore.cache store /\
  GormStore.Close (snd (GormStore.Close store)) = (None, snd (GormStore.Close store)) /\
  (forall sessionID,
     is_Some (Registry.lookupSession sessionID sessions) ->
     Registry.UnregisterSession sessionID sessions = (None, delete sessionID sessions)).
Proof.
  unfold GormStore.Close.
  destruct store as [sid c [|]]; simpl; repeat split; auto.
  - intros sid' [s Hs]. unfold Registry.UnregisterSession, Registry.lookupSession in *.
    rewrite Hs. unfold Close, gromStore_MessageStore, GormStore.Close.
    by destruct (GormStore.db (Registry.store s)).
  - intros sid' [s Hs]. unfold Registry.UnregisterSession, Registry.lookupSession in *.
    rewrite Hs. unfold Close, gromStore_MessageStore, GormStore.Close.
    by destruct (GormStore.db (Registry.store s)).
Qed.

(** X19. Routing never registers or unregisters.  [SendToTarget] on an
    identity that is not registered returns the unknown-session error and the
    registry as it was; on a registered one it returns what queueing on that
    handle returns and replaces that handle only.  Either way, and for [Send]
    too, the set of registered identities is the same afterwards. *)
Theorem routing_keeps_identities {S M : Type} `{Messagable M}
  (queueForSend : Registry.session S -> Message -> option error * Registry.session S)
  (m : M) (sessionID : SessionID) (sessions : gmap SessionID (Registry.session S)) :
  (Registry.lookupSession sessionID sessions = None ->
   Registry.SendToTarget queueForSend m sessionID sessions
   = (Some errUnknownSession, sessions)) /\
  (forall s,
     Registry.lookupSession sessionID sessions = Some s ->
     Registry.SendToTarget queueForSend m sessionID sessions
     = (fst (queueForSend s (ToMessage m)),
        <[sessionID := snd (queueForSend s (ToMessage m))]> sessions)) /\
  dom (snd (Registry.SendToTarget queueForSend m sessionID sessions)) = dom sessions /\
  dom (snd (Registry.Send queueForSend m sessions)) = dom sessions.
Proof.
  assert (forall M' (HM : Messagable M') (m' : M') sid,
            dom (snd (Registry.SendToTarget queueForSend m' sid sessions))
            = dom sessions) as Hdom.
  { intros M' HM m' sid. unfold Registry.SendToTarget, Registry.lookupSession.
    destruct (sessions !! sid) as [s|] eqn:Hs; [|done].
    destruct (queueForSend s (ToMessage m')) as [e s']. simpl.
    apply dom_insert_lookup_L. by eexists. }
  split; [|split; [|split]].
  - unfold Registry.SendToTarget, Registry.lookupSession. by intros ->.
  - unfold Registry.SendToTarget, Registry.lookupSession. intros s ->.
    by destruct (queueForSend s (ToMessage m)).
  - apply Hdom.
  - unfold Registry.Send.
    destruct (GetField _ tagBeginString "") as [[e|] b]; [done|].
    destruct (GetField _ tagTargetCompID "") as [[e|] t]; [done|].
    destruct (GetField _ tagSenderCompID "") as [[e|] sc]; [done|].
    destruct (GetField _ tagSenderSubID "") as [e1 ss].
    destruct (GetField _ tagTargetSubID "") as [e2 ts].
    destruct (_ && _); apply Hdom.
Qed.
